(** * link2link: the repository tree resolver and its caller's input parser

    A shallow embedding of [fetchRepoFileTree] (services/githubService.ts)
    and of [parseRepoInput] (components/RepoAnalyzer.tsx), with the
    properties the specification states about them.

    It goes on with the five functions of services/geminiService.ts and
    with the handlers of RepoAnalyzer.tsx that call the two services
    ([handleAnalyze], [handleGenerate3D], [handleApiError], [addToHistory],
    [loadFromHistory]), and with what the code itself shows about them. *)

From Stdlib Require Import String Ascii List ZArith Bool Lia.
Import ListNotations.

Open Scope string_scope.
Open Scope bool_scope.

(** ** JavaScript string operations used by the two functions

    A JavaScript string is modelled as a [string] of 8-bit code units. *)

Module JsString.

(** [s.startsWith(p)] *)
Definition startsWith (s p : string) : bool := String.prefix p s.

(** [s.includes(sub)]: [sub] occurs at some position of [s]. *)
Fixpoint includes (s sub : string) : bool :=
  String.prefix sub s ||
  match s with
  | EmptyString => false
  | String _ t => includes t sub
  end.

(** [parts.join(sep)] *)
Definition join (sep : string) (parts : list string) : string :=
  String.concat sep parts.

(** Case folding of a regular expression with the [i] flag and without the
    [u] flag: a code unit is compared through its upper-case form, and a
    code unit of 128 or more is never folded onto one below 128.  The
    pattern of the filter holds ASCII letters and a dot only, so folding
    the ASCII letters decides every comparison against it. *)
Definition canonicalize (c : ascii) : ascii :=
  let n := nat_of_ascii c in
  if (97 <=? n)%nat && (n <=? 122)%nat then ascii_of_nat (n - 32) else c.

Fixpoint eqb_ci (a b : string) : bool :=
  match a, b with
  | EmptyString, EmptyString => true
  | String x a', String y b' =>
      Ascii.eqb (canonicalize x) (canonicalize y) && eqb_ci a' b'
  | _, _ => false
  end.

(** [s.toLowerCase()] on the ASCII letters, for the specification side. *)
Definition lower (c : ascii) : ascii :=
  let n := nat_of_ascii c in
  if (65 <=? n)%nat && (n <=? 90)%nat then ascii_of_nat (n + 32) else c.

Fixpoint toLowerCase (s : string) : string :=
  match s with
  | EmptyString => EmptyString
  | String c t => String (lower c) (toLowerCase t)
  end.

(** [s.split(sep)] for a one-character separator: the pieces between the
    separators, the empty string giving one empty piece. *)
Fixpoint split (sep : ascii) (s : string) : list string :=
  match s with
  | EmptyString => [EmptyString]
  | String c t =>
      if Ascii.eqb c sep then EmptyString :: split sep t
      else match split sep t with
           | [] => [String c EmptyString]
           | p :: ps => String c p :: ps
           end
  end.

(** Truthiness of a string: the empty string is the only falsy one. *)
Definition truthy (s : string) : bool :=
  match s with EmptyString => false | _ => true end.

End JsString.

(** ** The data model (types.ts) *)

Record RepoFileTree := mkEntry { path : string; type : string }.

(** ** The filter of lines 23-30 *)

Module Filter.
Import JsString.

(** The alternatives of the pattern, in the order the source lists them. *)
Definition extensions : list string :=
  ["js"; "jsx"; "ts"; "tsx"; "py"; "go"; "rs"; "java"; "c"; "cpp"; "h";
   "hpp"; "cs"; "php"; "rb"; "swift"; "kt"; "dart"; "json"; "yaml"; "yml";
   "toml"; "xml"; "html"; "css"].

(** An attempt of [/\.(js|jsx|...|css)$/i] at the head of [s]: a literal
    dot, one alternative, then the end of the input. *)
Definition ext_re_at (s : string) : bool :=
  match s with
  | String "."%char rest => existsb (eqb_ci rest) extensions
  | _ => false
  end.

(** [path.match(re)] is truthy when the attempt succeeds at some position. *)
Fixpoint ext_re_match (s : string) : bool :=
  ext_re_at s ||
  match s with
  | EmptyString => false
  | String _ t => ext_re_match t
  end.

Definition keep (item : RepoFileTree) : bool :=
  String.eqb (type item) "blob" &&
  ext_re_match (path item) &&
  negb (includes (path item) "node_modules") &&
  negb (includes (path item) "dist/") &&
  negb (includes (path item) "build/") &&
  negb (startsWith (path item) ".").

(** [(data.tree || []).filter(...)] *)
Definition filter_tree (tree : option (list RepoFileTree)) : list RepoFileTree :=
  List.filter keep (match tree with Some t => t | None => [] end).

End Filter.

(** ** Errors, responses and the effects of the resolver *)

(** A JavaScript [Error]: the resolver and its caller read its [message]. *)
Record JsError := Error { message : string }.

(** What a successfully parsed body holds, as the function reads it:
    [data.truncated] through its truthiness, and [data.tree], which is an
    array of entries or is falsy (absent or [null]). *)
Record TreeData := mkData {
  truncated : bool;
  tree : option (list RepoFileTree)
}.

(** The body of a response, by what lines 16-30 do with it.

    [Json data]: it parses, and its tree is absent or an array of entries
    with the two string fields of the [RepoFileTree] interface.

    [Malformed e]: [await response.json()] throws [e], or yields [null], on
    which reading [data.truncated] throws [e]; nothing is logged before.

    [Unfilterable truncated e]: it parses to a value whose [truncated] is
    read, but whose tree cannot be filtered, so that [.filter] throws [e]
    after the warning: the tree is truthy and not an array, or one of its
    entries is not an object with a string path. *)
Inductive Body :=
| Json (data : TreeData)
| Malformed (e : JsError)
| Unfilterable (truncated : bool) (e : JsError).

Record Response := mkResponse { status : Z; body : Body }.

(** [response.ok] of the Fetch API: the status is in the range 200-299. *)
Definition ok (r : Response) : bool :=
  (200 <=? status r)%Z && (status r <=? 299)%Z.

(** [await fetch(url)] either yields a response or rejects. *)
Inductive FetchOutcome :=
| Responded (r : Response)
| NetworkFailure (e : JsError).

(** The remote, as one call of the resolver sees it. *)
Definition Remote := string -> FetchOutcome.

(** What a call leaves behind: the requests it issued and what it wrote to
    the console, oldest first. *)
Inductive Event :=
| Request (url : string)
| ConsoleWarn (msg : string)
| ConsoleError (msg : string) (e : JsError).

Inductive Completion (A : Type) :=
| Return (a : A)
| Throw (e : JsError).
Arguments Return {A} a.
Arguments Throw {A} e.

Module Async.

(** A computation that appends to the log of events and completes
    normally or throws. *)
Definition t (A : Type) : Type := list Event -> Completion A * list Event.

Definition ret {A} (a : A) : t A := fun log => (Return a, log).

Definition throw {A} (e : JsError) : t A := fun log => (Throw e, log).

Definition bind {A B} (m : t A) (k : A -> t B) : t B :=
  fun log =>
    match m log with
    | (Return a, log') => k a log'
    | (Throw e, log') => (Throw e, log')
    end.

(** [try { m } catch (error) { handler error }] *)
Definition try_catch {A} (m : t A) (handler : JsError -> t A) : t A :=
  fun log =>
    match m log with
    | (Return a, log') => (Return a, log')
    | (Throw e, log') => handler e log'
    end.

Definition emit (ev : Event) : t unit := fun log => (Return tt, (log ++ [ev])%list).

Definition when (b : bool) (m : t unit) : t unit := if b then m else ret tt.

End Async.

Declare Scope async_scope.
Delimit Scope async_scope with async.
Notation "x <- m ;; k" := (Async.bind m (fun x => k))
  (at level 61, m at next level, right associativity) : async_scope.
Notation "m ;;; k" := (Async.bind m (fun _ => k))
  (at level 61, right associativity) : async_scope.

(** ** fetchRepoFileTree (services/githubService.ts) *)

Module GithubService.
Import JsString Filter Async.
Open Scope async_scope.

Definition branches : list string := ["main"; "master"].

Definition tree_url (owner repo branch : string) : string :=
  "https://api.github.com/repos/" ++ owner ++ "/" ++ repo ++
  "/git/trees/" ++ branch ++ "?recursive=1".

Definition rate_limit_message : string :=
  "GitHub API rate limit exceeded. Please try again later (usually resets in an hour).".

Definition RateLimited : JsError := Error rate_limit_message.

Definition not_found_message (bs : list string) : string :=
  "Failed to fetch repository. It might be private, non-existent, or using a non-standard default branch (checked: "
  ++ join ", " bs ++ ").".

Definition NotFound : JsError := Error (not_found_message branches).

Definition truncated_warning : string :=
  "Warning: Repository tree is too large and was truncated by GitHub API.".

Section WithRemote.
Variable remote : Remote.

Definition fetch (url : string) : Async.t Response :=
  emit (Request url) ;;;
  match remote url with
  | Responded r => ret r
  | NetworkFailure e => throw e
  end.

(** [await response.json()], with the read of [data.truncated] that
    follows it. *)
Definition json (r : Response) : Async.t Body :=
  match body r with
  | Malformed e => throw e
  | data => ret data
  end.

(** The truthiness of [data.truncated]. *)
Definition truncated_flag (data : Body) : bool :=
  match data with
  | Json d => truncated d
  | Unfilterable t _ => t
  | Malformed _ => false
  end.

(** [(data.tree || []).filter(...)] of lines 23-30 *)
Definition filtered (data : Body) : Async.t (list RepoFileTree) :=
  match data with
  | Json d => ret (filter_tree (tree d))
  | Unfilterable _ e => throw e
  | Malformed e => throw e
  end.

(** [branches[branches.length - 1]] *)
Definition last_branch (bs : list string) : string :=
  nth (length bs - 1) bs "".

(** One iteration of the loop.  [Some files] is the [return] of line 23;
    [None] is the end of the iteration, after which the loop goes on. *)
Definition attempt (bs : list string) (owner repo branch : string)
  : Async.t (option (list RepoFileTree)) :=
  try_catch
    (response <- fetch (tree_url owner repo branch) ;;
     if ok response then
       data <- json response ;;
       when (truncated_flag data) (emit (ConsoleWarn truncated_warning)) ;;;
       files <- filtered data ;;
       ret (Some files)
     else if (status response =? 403)%Z || (status response =? 429)%Z then
       throw RateLimited
     else
       ret None)
    (fun error =>
       if includes (message error) "rate limit" then throw error
       else
         when (String.eqb branch (last_branch bs))
              (emit (ConsoleError "Error fetching repo tree:" error)) ;;;
         ret None).

(** [for (const branch of branches) { ... }], on the branches left. *)
Fixpoint try_branches (bs : list string) (owner repo : string)
         (rest : list string) : Async.t (option (list RepoFileTree)) :=
  match rest with
  | [] => ret None
  | branch :: rest' =>
      r <- attempt bs owner repo branch ;;
      match r with
      | Some files => ret (Some files)
      | None => try_branches bs owner repo rest'
      end
  end.

Definition fetchRepoFileTree (owner repo : string)
  : Async.t (list RepoFileTree) :=
  r <- try_branches branches owner repo branches ;;
  match r with
  | Some files => ret files
  | None => throw NotFound
  end.

End WithRemote.

(** A call starts with an empty log. *)
Definition resolve (remote : Remote) (owner repo : string)
  : Completion (list RepoFileTree) * list Event :=
  fetchRepoFileTree remote owner repo [].

End GithubService.

(** ** parseRepoInput (components/RepoAnalyzer.tsx) *)

Record RepositoryReference := mkRef { owner : string; repo : string }.

(** The two fields of a parsed [URL] that the parser reads. *)
Record URL := mkURL { hostname : string; pathname : string }.

Module RepoAnalyzer.
Import JsString.

(** White space of [trim()] among the code units below 256, the only ones
    a [string] here holds: TAB, LF, VT, FF, CR, SPACE and NBSP.  [trim()]
    also strips U+1680, U+2000 to U+200A, U+2028, U+2029, U+202F, U+205F,
    U+3000 and U+FEFF, which no [string] here contains. *)
Definition is_white_space (c : ascii) : bool :=
  let n := nat_of_ascii c in
  ((9 <=? n)%nat && (n <=? 13)%nat) || (n =? 32)%nat || (n =? 160)%nat.

Fixpoint trimStart (s : string) : string :=
  match s with
  | EmptyString => EmptyString
  | String c t => if is_white_space c then trimStart t else s
  end.

Fixpoint trimEnd (s : string) : string :=
  match s with
  | EmptyString => EmptyString
  | String c t =>
      match trimEnd t with
      | EmptyString => if is_white_space c then EmptyString else String c EmptyString
      | t' => String c t'
      end
  end.

Definition trim (s : string) : string := trimEnd (trimStart s).

(** [s.replace(/\/$/, '')]: one slash at the very end is removed. *)
Fixpoint strip_trailing_slash (s : string) : string :=
  match s with
  | EmptyString => EmptyString
  | String c EmptyString => if Ascii.eqb c "/" then EmptyString else s
  | String c t => String c (strip_trailing_slash t)
  end.

Section WithURLParser.
(** [new URL(s)] of the platform: [None] when it throws. *)
Variable newURL : string -> option URL.

Definition parseRepoInput (input : string) : option RepositoryReference :=
  let cleanInput := strip_trailing_slash (trim input) in
  let from_url :=
    match newURL cleanInput with
    | Some url =>
        if String.eqb (hostname url) "github.com" then
          match List.filter truthy (split "/" (pathname url)) with
          | o :: r :: _ => Some (mkRef o r)
          | _ => None
          end
        else None
    | None => None
    end in
  match from_url with
  | Some ref => Some ref
  | None =>
      match split "/" cleanInput with
      | [o; r] => if truthy o && truthy r then Some (mkRef o r) else None
      | _ => None
      end
  end.

End WithURLParser.

End RepoAnalyzer.

(** ** The filter policy, in the words of the specification *)

Module Policy.
Import JsString Filter.

(** The path contains the marker somewhere. *)
Definition contains (p marker : string) : Prop :=
  exists before after, p = before ++ marker ++ after.

(** The path ends, case-insensitively, with a dot and a recognized
    extension. *)
Definition ends_with_extension (p : string) : Prop :=
  exists stem suffix ext,
    p = stem ++ "." ++ suffix /\ In ext extensions /\ toLowerCase suffix = ext.

Definition begins_with_dot (p : string) : Prop :=
  exists rest, p = "." ++ rest.

Definition relevant (e : RepoFileTree) : Prop :=
  type e = "blob" /\
  ends_with_extension (path e) /\
  ~ contains (path e) "node_modules" /\
  ~ contains (path e) "dist/" /\
  ~ contains (path e) "build/" /\
  ~ begins_with_dot (path e).

(** [Kept raw out]: [out] is [raw] with exactly the entries that are not
    relevant removed, the others staying in their order. *)
Inductive Kept : list RepoFileTree -> list RepoFileTree -> Prop :=
| Kept_nil : Kept [] []
| Kept_take e raw out : relevant e -> Kept raw out -> Kept (e :: raw) (e :: out)
| Kept_drop e raw out : ~ relevant e -> Kept raw out -> Kept (e :: raw) out.

End Policy.

(** ** Outcomes of one candidate, as the loop treats them *)

Module Outcome.
Import JsString.

(** The iteration ends without a result and without an error, so the loop
    goes on: a status that is neither a success nor 403 or 429, or an
    exception whose message does not hold [rate limit]. *)
Definition falls_through (o : FetchOutcome) : bool :=
  match o with
  | NetworkFailure e => negb (includes (message e) "rate limit")
  | Responded r =>
      if ok r then
        match body r with
        | Json _ => false
        | Malformed e => negb (includes (message e) "rate limit")
        | Unfilterable _ e => negb (includes (message e) "rate limit")
        end
      else negb ((status r =? 403)%Z || (status r =? 429)%Z)
  end.

(** The response is a success whose body parses to [data]. *)
Definition succeeds_with (o : FetchOutcome) (data : TreeData) : Prop :=
  exists r, o = Responded r /\ ok r = true /\ body r = Json data.

(** The same outcome with the [truncated] flag of a parsed body replaced. *)
Definition with_truncated (flag : bool) (o : FetchOutcome) : FetchOutcome :=
  match o with
  | Responded (mkResponse st (Json data)) =>
      Responded (mkResponse st (Json (mkData flag (tree data))))
  | Responded (mkResponse st (Unfilterable _ e)) =>
      Responded (mkResponse st (Unfilterable flag e))
  | _ => o
  end.

Definition is_warning (ev : Event) : bool :=
  match ev with ConsoleWarn _ => true | _ => false end.

(** The URLs a call requested, oldest first. *)
Definition requests (log : list Event) : list string :=
  flat_map (fun ev => match ev with Request u => [u] | _ => [] end) log.

(** The array the filter runs on: [data.tree || []]. *)
Definition raw_tree (data : TreeData) : list RepoFileTree :=
  match tree data with Some t => t | None => [] end.

Section Candidates.
Variables (remote : Remote) (owner repo : string).

Let main := remote (GithubService.tree_url owner repo "main").
Let master := remote (GithubService.tree_url owner repo "master").

(** The first candidate that does not fall through is a success whose
    body parses to [data]. *)
Definition answered_with (data : TreeData) : Prop :=
  succeeds_with main data \/
  (falls_through main = true /\ succeeds_with master data).

End Candidates.

End Outcome.

(** ** The filter policy read by directory segments

    The specification speaks of a path that contains a directory segment:
    [dist/] and [build/] are the directories named dist and build, and the
    dependency-vendor directory is the one named node_modules. *)

Module Segments.
Import JsString Filter.

(** The directories of a path: its pieces between slashes, the last one,
    the name of the file, left out. *)
Definition directories (p : string) : list string :=
  removelast (split "/" p).

Definition has_directory (p name : string) : Prop := In name (directories p).

Definition relevant (e : RepoFileTree) : Prop :=
  type e = "blob" /\
  Policy.ends_with_extension (path e) /\
  ~ has_directory (path e) "node_modules" /\
  ~ has_directory (path e) "dist" /\
  ~ has_directory (path e) "build" /\
  ~ Policy.begins_with_dot (path e).

End Segments.

(** ** Concrete remotes *)

Module Examples.
Import GithubService.

Definition main_url : string := tree_url "octo" "demo" "main".
Definition master_url : string := tree_url "octo" "demo" "master".

(** A remote that answers the two candidate URLs of octo/demo and is
    unreachable for every other URL. *)
Definition remote_of (main master : FetchOutcome) : Remote :=
  fun url =>
    if String.eqb url main_url then main
    else if String.eqb url master_url then master
    else NetworkFailure (Error "Failed to fetch").

Definition success (t : list RepoFileTree) : FetchOutcome :=
  Responded (mkResponse 200 (Json (mkData false (Some t)))).

Definition success_without_tree : FetchOutcome :=
  Responded (mkResponse 200 (Json (mkData false None))).

Definition not_found : FetchOutcome :=
  Responded (mkResponse 404 (Json (mkData false None))).

Definition throttled : FetchOutcome :=
  Responded (mkResponse 403 (Json (mkData false None))).

(** The raw tree of the specification's filtering example. *)
Definition spec_tree : list RepoFileTree :=
  [mkEntry "src/index.ts" "blob";
   mkEntry "node_modules/x/y.js" "blob";
   mkEntry "dist/bundle.js" "blob";
   mkEntry ".env" "blob";
   mkEntry "src/" "tree";
   mkEntry "README.md" "blob"].

Definition double_quote : string := String (ascii_of_nat 34) EmptyString.

(** The message of the [SyntaxError] that V8's [JSON.parse] raises on the
    body text [rate limit exceeded]: it quotes the text it could not
    parse. *)
Definition json_syntax_error : JsError :=
  Error ("Unexpected token 'r', " ++ double_quote ++ "rate limit exceeded"
         ++ double_quote ++ " is not valid JSON").

(** A 200 response whose body is that text. *)
Definition not_json : FetchOutcome :=
  Responded (mkResponse 200 (Malformed json_syntax_error)).

(** A toy [new URL]: it knows one address. *)
Definition toy_URL (s : string) : option URL :=
  if String.eqb s "https://github.com/facebook/react"
  then Some (mkURL "github.com" "/facebook/react")
  else None.

End Examples.

(** ** Proof automation for one iteration *)

Ltac run_attempt :=
  cbv beta iota zeta delta
    [GithubService.attempt Async.try_catch Async.bind GithubService.fetch
     Async.emit GithubService.json GithubService.truncated_flag
     GithubService.filtered Async.when Async.ret Async.throw].

Ltac split_ifs :=
  repeat match goal with
         | |- context [if ?c then _ else _] => destruct c eqn:?
         end.

Ltac eqb_to_eq :=
  repeat match goal with
         | H : String.eqb _ _ = true |- _ => apply String.eqb_eq in H
         end.

From Stdlib Require Import DecimalString.

(** ** A program over a world: state passing with exceptions

    The handlers and the generation service run against more than the
    request log of the resolver; [Prog.t W] is the same kind of computation
    as [Async.t], over any world [W]. *)

Module Prog.

Definition t (W A : Type) : Type := W -> Completion A * W.

Definition ret {W A} (a : A) : t W A := fun w => (Return a, w).

Definition throw {W A} (e : JsError) : t W A := fun w => (Throw e, w).

Definition bind {W A B} (m : t W A) (k : A -> t W B) : t W B :=
  fun w =>
    match m w with
    | (Return a, w') => k a w'
    | (Throw e, w') => (Throw e, w')
    end.

(** [try { m } catch (error) { handler error }] *)
Definition try_catch {W A} (m : t W A) (handler : JsError -> t W A) : t W A :=
  fun w =>
    match m w with
    | (Return a, w') => (Return a, w')
    | (Throw e, w') => handler e w'
    end.

(** [try { m } finally { f }]: [f] runs however [m] completes. *)
Definition finally {W A} (m : t W A) (f : t W unit) : t W A :=
  fun w =>
    match m w with
    | (c, w') =>
        match f w' with
        | (Return _, w'') => (c, w'')
        | (Throw e, w'') => (Throw e, w'')
        end
    end.

Definition modify {W} (f : W -> W) : t W unit := fun w => (Return tt, f w).

Definition when {W} (b : bool) (m : t W unit) : t W unit :=
  if b then m else ret tt.

(** [await m] among other handlers: the handler is suspended until [m]
    has completed, and [others] is what the handlers that ran in the
    meantime did to the world. *)
Definition await {W A} (others : W -> W) (m : t W A) : t W A :=
  fun w => match m w with (c, w') => (c, others w') end.

(** Runs a computation over a part [S] of the world. *)
Definition zoom {W S A} (get : W -> S) (set : S -> W -> W) (m : t S A) : t W A :=
  fun w => match m (get w) with (c, s') => (c, set s' w) end.

End Prog.

Declare Scope prog_scope.
Delimit Scope prog_scope with prog.
Notation "x <- m ;; k" := (Prog.bind m (fun x => k))
  (at level 61, m at next level, right associativity) : prog_scope.
Notation "m ;;; k" := (Prog.bind m (fun _ => k))
  (at level 61, right associativity) : prog_scope.

(** ** The generation API, as services/geminiService.ts reads and calls it *)

Module Types.

Record Citation := mkCitation { uri : string; title : string }.

End Types.

Module Gemini.

(** The fields of a response that the service reads; each may be absent. *)
Record Blob := mkBlob { data : option string }.
Record Part := mkPart { inlineData : option Blob }.
Record Content := mkContent { parts : option (list Part) }.
Record Web := mkWeb { uri : option string; title : option string }.
Record GroundingChunk := mkChunk { web : option Web }.
Record GroundingMetadata := mkGrounding {
  groundingChunks : option (list GroundingChunk)
}.
Record Candidate := mkCandidate {
  content : option Content;
  groundingMetadata : option GroundingMetadata
}.
Record GenerateContentResponse := mkGenerated {
  candidates : option (list Candidate);
  text : option string
}.

(** The requests the service builds. *)
Inductive RequestPart :=
| TextPart (text : string)
| InlineDataPart (mimeType data : string).

Inductive Contents :=
| PlainText (s : string)
| Parts (ps : list RequestPart).

Inductive Config :=
| NoConfig
| ImageModality
| GoogleSearchTool.

Record GenerateContentParameters := mkRequest {
  model : string;
  contents : Contents;
  config : Config
}.

(** [ai.models.generateContent]: it answers or rejects. *)
Definition Model := GenerateContentParameters -> Completion GenerateContentResponse.

(** What the service leaves behind, oldest first. *)
Inductive GeminiEvent :=
| GenerateContent (req : GenerateContentParameters)
| LogError (msg : string) (e : JsError)
| LogWarn (msg : string) (e : JsError)
| Progress (stage : string).

End Gemini.

(** [Map<string, V>], which remembers the order in which keys came in. *)
Module JsMap.

Definition t (V : Type) : Type := list (string * V).

(** [m.set(k, v)]: a key already present keeps its place and takes the new
    value; a new key goes to the end. *)
Fixpoint set {V} (k : string) (v : V) (m : t V) : t V :=
  match m with
  | [] => [(k, v)]
  | (k', v') :: rest =>
      if String.eqb k' k then (k, v) :: rest else (k', v') :: set k v rest
  end.

(** [Array.from(m.values())] *)
Definition values {V} (m : t V) : list V := List.map snd m.

End JsMap.

Module GeminiService.
Import JsString Gemini.
Open Scope prog_scope.

Definition nl : string := String (ascii_of_nat 10) EmptyString.
Definition dq : string := String (ascii_of_nat 34) EmptyString.

Record InfographicResult := mkResult {
  imageData : option string;
  citations : list Types.Citation
}.

(** [x || fallback] on an optional string. *)
Definition or_else (x : option string) (fallback : string) : string :=
  match x with
  | Some s => if truthy s then s else fallback
  | None => fallback
  end.

(** [response.candidates?.[0]] *)
Definition first_candidate (response : GenerateContentResponse) : option Candidate :=
  match candidates response with
  | Some (c :: _) => Some c
  | _ => None
  end.

(** [response.candidates?.[0]?.content?.parts] *)
Definition first_parts (response : GenerateContentResponse) : option (list Part) :=
  match first_candidate response with
  | Some c => match content c with Some ct => parts ct | None => None end
  | None => None
  end.

(** The loop over the parts: the data of the first part for which
    [part.inlineData && part.inlineData.data] is truthy. *)
Fixpoint first_inline_data (ps : list Part) : option string :=
  match ps with
  | [] => None
  | part :: rest =>
      match inlineData part with
      | Some blob =>
          match data blob with
          | Some d => if truthy d then Some d else first_inline_data rest
          | None => first_inline_data rest
          end
      | None => first_inline_data rest
      end
  end.

(** [if (parts) { for ... } return null] *)
Definition image_of (response : GenerateContentResponse) : option string :=
  match first_parts response with
  | Some ps => first_inline_data ps
  | None => None
  end.

Module Infographic.

Definition limitedTree (fileTree : list RepoFileTree) : string :=
  join ", " (List.map path (firstn 150 fileTree)).

Definition modern_data_flow : string :=
  "VISUAL STYLE: Replicate " ++ dq ++ "Androidify Data Flow" ++ dq
  ++ " aesthetic. Light blue (#eef8fe) solid background. Colorful, flat vector icons. Smooth, bright blue curved arrows.".

Definition styleGuidelines (style : string) (is3D : bool) : string :=
  if is3D then
    "VISUAL STYLE: Photorealistic Miniature Diorama. The data flow should look like a complex, glowing 3D printed physical model sitting on a dark, reflective executive desk."
  else if String.eqb style "Hand-Drawn Blueprint" then
    "VISUAL STYLE: Technical architectural blueprint. Dark blue background with white/light blue hand-drawn lines. Looks like a sketch on drafting paper."
  else if String.eqb style "Corporate Minimal" then
    "VISUAL STYLE: Clean, corporate, minimalist. White background, lots of whitespace. Use a limited, professional color palette (greys, navy blues)."
  else if String.eqb style "Neon Cyberpunk" then
    "VISUAL STYLE: Dark mode cyberpunk. Black background with glowing neon pink, cyan, and violet lines and nodes. High contrast, futuristic look."
  else if String.eqb style "Modern Data Flow" then
    modern_data_flow
  else if truthy style && negb (String.eqb style "Custom") then
    "VISUAL STYLE: " ++ style ++ "."
  else
    modern_data_flow.

Definition dimensionPrompt (is3D : bool) : string :=
  if is3D then
    "PERSPECTIVE & RENDER: Isometric view with TILT-SHIFT depth of field (blurry foreground/background) to make it look like a small, tangible object on a table. Cinematic volumetric lighting. Highly detailed, 'octane render' style."
  else
    "Perspective: Clean 2D flat diagrammatic view straight-on. No 3D effects.".

Definition baseStylePrompt (styleGuidelines language : string) : string :=
  nl ++ "  STRICT VISUAL STYLE GUIDELINES:" ++ nl ++ "  " ++ styleGuidelines
  ++ nl ++ "  - LAYOUT: Distinct Left-to-Right flow." ++ nl
  ++ "  - CENTRAL CONTAINER: Group core logic inside a clearly defined central area."
  ++ nl
  ++ "  - ICONS: Use relevant technical icons (databases, servers, code files, users)."
  ++ nl ++ "  - TYPOGRAPHY: Highly readable technical font. Text MUST be in "
  ++ language ++ "." ++ nl ++ "  ".

Definition prompt (repoName limitedTree baseStylePrompt dimensionPrompt
                   language : string) : string :=
  "Create a highly detailed technical logical data flow diagram infographic for GitHub repository : "
  ++ dq ++ repoName ++ dq ++ "." ++ nl ++ "  " ++ nl ++ "  "
  ++ baseStylePrompt ++ nl ++ "  " ++ dimensionPrompt ++ nl ++ "  " ++ nl
  ++ "  Repository Context: " ++ limitedTree ++ "..." ++ nl ++ "  " ++ nl
  ++ "  Diagram Content Requirements:" ++ nl ++ "  1. Title exactly: " ++ dq
  ++ repoName ++ " Data Flow" ++ dq ++ " (Translated to " ++ language
  ++ " if not English)" ++ nl
  ++ "  2. Visually map the likely data flow based on the provided file structure."
  ++ nl ++ "  3. Ensure the " ++ dq ++ "Input -> Processing -> Output" ++ dq
  ++ " structure is clear." ++ nl
  ++ "  4. Add short, clear text labels to connecting arrows indicating data type (e.g., "
  ++ dq ++ "JSON" ++ dq ++ ", " ++ dq ++ "Auth Token" ++ dq ++ ")." ++ nl
  ++ "  5. IMPORTANT: All text labels and explanations in the image must be written in "
  ++ language ++ "." ++ nl ++ "  ".

End Infographic.

Module RepoQuestion.

Definition limitedTree (fileTree : list RepoFileTree) : string :=
  join nl (List.map path (firstn 300 fileTree)).

Definition prompt (question limitedTree : string) : string :=
  "You are a senior software architect reviewing a project." ++ nl ++ "  "
  ++ nl ++ "  Attached is an architectural infographic of the project." ++ nl
  ++ "  Here is the actual file structure of the repository:" ++ nl ++ "  "
  ++ limitedTree ++ nl ++ "  " ++ nl ++ "  User Question: " ++ dq ++ question
  ++ dq ++ nl ++ "  " ++ nl
  ++ "  Using BOTH the visual infographic and the file structure as context, answer the user's question. "
  ++ nl
  ++ "  If they ask about optimization, suggest specific areas based on the likely bottlenecks visible in standard architectures like this."
  ++ nl ++ "  Keep answers concise, technical, and helpful.".

End RepoQuestion.

Module NodeQuestion.

Definition prompt (nodeLabel question limitedTree : string) : string :=
  "You are a senior software architect analyzing a repository." ++ nl ++ "  "
  ++ nl
  ++ "  The user is asking about a specific node in the dependency graph labeled: "
  ++ dq ++ nodeLabel ++ dq ++ "." ++ nl ++ "  " ++ nl
  ++ "  Repository File Structure Context (first 300 files):" ++ nl ++ "  "
  ++ limitedTree ++ nl ++ "  " ++ nl ++ "  User Question: " ++ dq ++ question
  ++ dq ++ nl ++ "  " ++ nl ++ "  Based on the node name " ++ dq ++ nodeLabel
  ++ dq
  ++ " and the file structure, explain what this component likely does, its responsibilities, and answer the specific question."
  ++ nl
  ++ "  Keep the response technical, concise, and helpful for a developer.".

End NodeQuestion.

Definition no_answer : string := "I couldn't generate an answer at this time.".

Module Article.

Definition analysisPrompt (url language : string) : string :=
  "You are an expert Information Designer. Your goal is to extract the essential structure from a web page to create a clear, educational infographic."
  ++ nl ++ nl ++ "        Analyze the content at this URL: " ++ url ++ nl
  ++ "        " ++ nl ++ "        TARGET LANGUAGE: " ++ language ++ "." ++ nl
  ++ "        " ++ nl
  ++ "        Provide a structured breakdown specifically designed for visual representation in "
  ++ language ++ ":" ++ nl
  ++ "        1. INFOGRAPHIC HEADLINE: The core topic in 5 words or less (in "
  ++ language ++ ")." ++ nl
  ++ "        2. KEY TAKEAWAYS: The 3 to 5 most important distinct points, steps, or facts (in "
  ++ language ++ "). THESE WILL BE THE MAIN SECTIONS OF THE IMAGE." ++ nl
  ++ "        3. SUPPORTING DATA: Any specific numbers, percentages, or very short quotes that add credibility."
  ++ nl
  ++ "        4. VISUAL METAPHOR IDEA: Suggest ONE simple visual concept that best fits this content (e.g., "
  ++ dq ++ "a roadmap with milestones" ++ dq ++ ", " ++ dq ++ "a funnel" ++ dq
  ++ ", " ++ dq ++ "three contrasting pillars" ++ dq ++ ", " ++ dq
  ++ "a circular flowchart" ++ dq ++ ")." ++ nl ++ "        " ++ nl
  ++ "        Keep the output concise and focused purely on what should be ON the infographic. Ensure all content is in "
  ++ language ++ ".".

Definition fallbackSummary (url language : string) : string :=
  "Create an infographic about: " ++ url ++ ". Translate text to " ++ language
  ++ ".".

Definition modern_editorial : string :=
  "STYLE: Modern, flat vector illustration style. Clean, professional, and editorial (like a high-end tech magazine). Cohesive, mature color palette.".

Definition styleGuidelines (style : string) : string :=
  if String.eqb style "Fun & Playful" then
    "STYLE: Fun, playful, vibrant 2D vector illustrations. Use bright colors, rounded shapes, and a friendly tone."
  else if String.eqb style "Clean Minimalist" then
    "STYLE: Ultra-minimalist. Lots of whitespace, thin lines, limited color palette (1-2 accent colors max). Very sophisticated and airy."
  else if String.eqb style "Dark Mode Tech" then
    "STYLE: Dark mode technical aesthetic. Dark slate/black background with bright, glowing accent colors (cyan, lime green) for data points."
  else if String.eqb style "Modern Editorial" then
    modern_editorial
  else if truthy style && negb (String.eqb style "Custom") then
    "STYLE: Custom User Style: " ++ dq ++ style ++ dq ++ "."
  else
    modern_editorial.

Definition imagePrompt (structuralSummary styleGuidelines language : string)
  : string :=
  "Create a professional, high-quality educational infographic based strictly on this structured content plan:"
  ++ nl ++ nl ++ "    " ++ structuralSummary ++ nl ++ nl
  ++ "    VISUAL DESIGN RULES:" ++ nl ++ "    - " ++ styleGuidelines ++ nl
  ++ "    - LANGUAGE: The text within the infographic MUST be written in "
  ++ language ++ "." ++ nl ++ "    - LAYOUT: MUST follow the " ++ dq
  ++ "VISUAL METAPHOR IDEA" ++ dq
  ++ " from the plan above if one was provided." ++ nl
  ++ "    - TYPOGRAPHY: Clean, highly readable sans-serif fonts. The " ++ dq
  ++ "INFOGRAPHIC HEADLINE" ++ dq ++ " must be prominent at the top." ++ nl
  ++ "    - CONTENT: Use the actual text from " ++ dq ++ "KEY TAKEAWAYS" ++ dq
  ++ " in the image. Do not use placeholder text like Lorem Ipsum." ++ nl
  ++ "    - GOAL: The image must be informative and readable as a standalone graphic."
  ++ nl ++ "    ".

(** The [forEach] over the grounding chunks: a chunk with a truthy
    [web.uri] gives a citation, whose title is [web.title || ""]. *)
Definition cite (chunk : GroundingChunk) : list Types.Citation :=
  match web chunk with
  | Some w =>
      match Gemini.uri w with
      | Some u => if truthy u then [Types.mkCitation u (or_else (Gemini.title w) "")] else []
      | None => []
      end
  | None => []
  end.

Definition collect (chunks : list GroundingChunk) : list Types.Citation :=
  flat_map cite chunks.

(** [citations.forEach(c => uniqueCitations.set(c.uri, c))], then
    [Array.from(uniqueCitations.values())]. *)
Definition deduplicate (cs : list Types.Citation) : list Types.Citation :=
  JsMap.values (fold_left (fun m c => JsMap.set (Types.uri c) c m) cs []).

(** [candidates?.[0]?.groundingMetadata?.groundingChunks] *)
Definition grounding_chunks (response : GenerateContentResponse)
  : option (list GroundingChunk) :=
  match first_candidate response with
  | Some c =>
      match groundingMetadata c with
      | Some g => groundingChunks g
      | None => None
      end
  | None => None
  end.

(** The citations of the analysis phase: none without chunks. *)
Definition citations_of (response : GenerateContentResponse) : list Types.Citation :=
  match grounding_chunks response with
  | Some chunks => deduplicate (collect chunks)
  | None => []
  end.

End Article.

Section WithModel.
Variable ai : Model.

Definition Service (A : Type) : Type := Prog.t (list GeminiEvent) A.

Definition emit (ev : GeminiEvent) : Service unit :=
  Prog.modify (fun log => (log ++ [ev])%list).

(** [await ai.models.generateContent(req)] *)
Definition generateContent (req : GenerateContentParameters)
  : Service GenerateContentResponse :=
  emit (GenerateContent req) ;;;
  match ai req with
  | Return response => Prog.ret response
  | Throw e => Prog.throw e
  end.

Definition generateInfographic (repoName : string) (fileTree : list RepoFileTree)
           (style : string) (is3D : bool) (language : string)
  : Service (option string) :=
  let limitedTree := Infographic.limitedTree fileTree in
  let styleGuidelines := Infographic.styleGuidelines style is3D in
  let dimensionPrompt := Infographic.dimensionPrompt is3D in
  let baseStylePrompt := Infographic.baseStylePrompt styleGuidelines language in
  let prompt :=
    Infographic.prompt repoName limitedTree baseStylePrompt dimensionPrompt
                       language in
  Prog.try_catch
    (response <- generateContent
                   (mkRequest "gemini-3-pro-image-preview"
                              (Parts [TextPart prompt]) ImageModality) ;;
     Prog.ret (image_of response))
    (fun error =>
       emit (LogError "Gemini infographic generation failed:" error) ;;;
       Prog.throw error).

Definition askRepoQuestion (question infographicBase64 : string)
           (fileTree : list RepoFileTree) : Service string :=
  let limitedTree := RepoQuestion.limitedTree fileTree in
  let prompt := RepoQuestion.prompt question limitedTree in
  Prog.try_catch
    (response <- generateContent
                   (mkRequest "gemini-3-pro-preview"
                              (Parts [InlineDataPart "image/png" infographicBase64;
                                      TextPart prompt])
                              NoConfig) ;;
     Prog.ret (or_else (text response) no_answer))
    (fun error =>
       emit (LogError "Gemini Q&A failed:" error) ;;;
       Prog.throw error).

Definition askNodeSpecificQuestion (nodeLabel question : string)
           (fileTree : list RepoFileTree) : Service string :=
  let limitedTree := RepoQuestion.limitedTree fileTree in
  let prompt := NodeQuestion.prompt nodeLabel question limitedTree in
  Prog.try_catch
    (response <- generateContent
                   (mkRequest "gemini-3-pro-preview"
                              (Parts [TextPart prompt]) NoConfig) ;;
     Prog.ret (or_else (text response) no_answer))
    (fun error =>
       emit (LogError "Gemini Node Q&A failed:" error) ;;;
       Prog.throw error).

(** [onProgress] is optional; when the caller gives one, each call of it is
    an event. *)
Definition report (onProgress : bool) (stage : string) : Service unit :=
  Prog.when onProgress (emit (Progress stage)).

Definition generateArticleInfographic (url style : string) (onProgress : bool)
           (language : string) : Service InfographicResult :=
  report onProgress "RESEARCHING & ANALYZING CONTENT..." ;;;
  analysis <-
    Prog.try_catch
      (analysisResponse <- generateContent
                             (mkRequest "gemini-3-pro-image-preview"
                                        (PlainText (Article.analysisPrompt url language))
                                        GoogleSearchTool) ;;
       Prog.ret (or_else (text analysisResponse) "",
                 Article.citations_of analysisResponse))
      (fun e =>
         emit (LogWarn "Content analysis failed, falling back to direct URL prompt" e) ;;;
         Prog.ret (Article.fallbackSummary url language, [])) ;;
  let structuralSummary := fst analysis in
  let citations := snd analysis in
  report onProgress "DESIGNING & RENDERING INFOGRAPHIC..." ;;;
  let styleGuidelines := Article.styleGuidelines style in
  let imagePrompt := Article.imagePrompt structuralSummary styleGuidelines language in
  Prog.try_catch
    (response <- generateContent
                   (mkRequest "gemini-3-pro-image-preview"
                              (Parts [TextPart imagePrompt]) ImageModality) ;;
     Prog.ret (mkResult (image_of response) citations))
    (fun error =>
       emit (LogError "Article infographic generation failed:" error) ;;;
       Prog.throw error).

Definition editImageWithGemini (base64Data mimeType prompt : string)
  : Service (option string) :=
  Prog.try_catch
    (response <- generateContent
                   (mkRequest "gemini-3-pro-image-preview"
                              (Parts [InlineDataPart mimeType base64Data;
                                      TextPart prompt])
                              ImageModality) ;;
     Prog.ret (image_of response))
    (fun error =>
       emit (LogError "Gemini image editing failed:" error) ;;;
       Prog.throw error).

End WithModel.

End GeminiService.

(** ** The handlers of components/RepoAnalyzer.tsx *)

Module History.

(** [RepoHistoryItem] of types.ts; a [Date] is its time in milliseconds. *)
Record RepoHistoryItem := mkItem {
  id : string;
  repoName : string;
  imageData : string;
  is3D : bool;
  style : string;
  date : Z
}.

End History.

Module AnalyzerView.
Import JsString Gemini.
Open Scope prog_scope.

(** The state of the component that the handlers write, with the
    [repoHistory] of App, which [onAddToHistory] reaches. *)
Record State := mkState {
  error : option string;
  loading : bool;
  loadingStage : string;
  infographicData : option string;
  infographic3DData : option string;
  generating3D : bool;
  currentFileTree : option (list RepoFileTree);
  currentRepoName : string;
  repoHistory : list History.RepoHistoryItem
}.

(** The state of the form, which the handlers only read. *)
Record Form := mkForm {
  repoInput : string;
  selectedStyle : string;
  customStyle : string;
  selectedLanguage : string
}.

Inductive BrowserEvent :=
| Confirm (msg : string)
| Reload
| ScrollToTop.

Record World := mkWorld {
  view : State;
  github : list Event;
  gemini : list GeminiEvent;
  browser : list BrowserEvent
}.

(** What the handlers call outside the repository.  [now] is what
    [Date.now()] gives and [today] what [new Date()] gives, two reads of
    the clock. *)
Record Platform := mkPlatform {
  newURL : string -> option URL;
  remote : Remote;
  ai : Model;
  confirm : string -> bool;
  now : Z;
  today : Z
}.

(** What other handlers do to the world while one is suspended: the
    history buttons and the form stay enabled during an [await]. *)
Definition Meanwhile : Type := World -> World.

(** Nothing else runs. *)
Definition undisturbed : Meanwhile := fun w => w.

Definition Handler (A : Type) : Type := Prog.t World A.

Definition set_view (f : State -> State) : Handler unit :=
  Prog.modify (fun w => mkWorld (f (view w)) (github w) (gemini w) (browser w)).

Definition setError (v : option string) : Handler unit :=
  set_view (fun s =>
    mkState v (loading s) (loadingStage s) (infographicData s)
            (infographic3DData s) (generating3D s) (currentFileTree s)
            (currentRepoName s) (repoHistory s)).

Definition setLoading (v : bool) : Handler unit :=
  set_view (fun s =>
    mkState (error s) v (loadingStage s) (infographicData s)
            (infographic3DData s) (generating3D s) (currentFileTree s)
            (currentRepoName s) (repoHistory s)).

Definition setLoadingStage (v : string) : Handler unit :=
  set_view (fun s =>
    mkState (error s) (loading s) v (infographicData s)
            (infographic3DData s) (generating3D s) (currentFileTree s)
            (currentRepoName s) (repoHistory s)).

Definition setInfographicData (v : option string) : Handler unit :=
  set_view (fun s =>
    mkState (error s) (loading s) (loadingStage s) v
            (infographic3DData s) (generating3D s) (currentFileTree s)
            (currentRepoName s) (repoHistory s)).

Definition setInfographic3DData (v : option string) : Handler unit :=
  set_view (fun s =>
    mkState (error s) (loading s) (loadingStage s) (infographicData s)
            v (generating3D s) (currentFileTree s)
            (currentRepoName s) (repoHistory s)).

Definition setGenerating3D (v : bool) : Handler unit :=
  set_view (fun s =>
    mkState (error s) (loading s) (loadingStage s) (infographicData s)
            (infographic3DData s) v (currentFileTree s)
            (currentRepoName s) (repoHistory s)).

Definition setCurrentFileTree (v : option (list RepoFileTree)) : Handler unit :=
  set_view (fun s =>
    mkState (error s) (loading s) (loadingStage s) (infographicData s)
            (infographic3DData s) (generating3D s) v
            (currentRepoName s) (repoHistory s)).

Definition setCurrentRepoName (v : string) : Handler unit :=
  set_view (fun s =>
    mkState (error s) (loading s) (loadingStage s) (infographicData s)
            (infographic3DData s) (generating3D s) (currentFileTree s)
            v (repoHistory s)).

(** [handleAddRepoHistory] of App.tsx: [setRepoHistory(prev => [item, ...prev])] *)
Definition handleAddRepoHistory (item : History.RepoHistoryItem) : Handler unit :=
  set_view (fun s =>
    mkState (error s) (loading s) (loadingStage s) (infographicData s)
            (infographic3DData s) (generating3D s) (currentFileTree s)
            (currentRepoName s) (item :: repoHistory s)).

Definition browser_emit (ev : BrowserEvent) : Handler unit :=
  Prog.modify (fun w =>
    mkWorld (view w) (github w) (gemini w) (browser w ++ [ev])%list).

Definition on_github {A} (m : Async.t A) : Handler A :=
  Prog.zoom github
            (fun log w => mkWorld (view w) log (gemini w) (browser w)) m.

Definition on_gemini {A} (m : GeminiService.Service A) : Handler A :=
  Prog.zoom gemini
            (fun log w => mkWorld (view w) (github w) log (browser w)) m.

Definition invalid_format : string :=
  "Invalid format. Use " ++ GeminiService.dq ++ "owner/repo" ++ GeminiService.dq
  ++ " or a full GitHub URL.".

Definition no_relevant_files : string :=
  "No relevant code files found in this repository.".

Definition no_visual : string := "Failed to generate visual.".

Definition unexpected_error : string :=
  "An unexpected error occurred during analysis.".

Definition billing_notice : string :=
  "BILLING REQUIRED: The current API key does not have access to these models."
  ++ GeminiService.nl ++ GeminiService.nl
  ++ "This feature requires a paid Google Cloud Project. Please switch to a valid paid API Key.".

(** [Number.prototype.toString] of an integer. *)
Definition toString (n : Z) : string := NilZero.string_of_int (Z.to_int n).

Section WithPlatform.
Variable platform : Platform.
Variable form : Form.

Definition addToHistory (repoName imageData : string) (is3D : bool)
           (style : string) : Handler unit :=
  let newItem :=
    History.mkItem (toString (now platform)) repoName imageData is3D style
                   (today platform) in
  handleAddRepoHistory newItem.

Definition handleApiError (err : JsError) : Handler unit :=
  Prog.when (truthy (message err) &&
             includes (message err) "Requested entity was not found")
    (browser_emit (Confirm billing_notice) ;;;
     Prog.when (confirm platform billing_notice) (browser_emit Reload)) ;;;
  setError (Some (GeminiService.or_else (Some (message err)) unexpected_error)).

(** [selectedStyle === 'Custom' ? customStyle : selectedStyle] *)
Definition styleToUse : string :=
  if String.eqb (selectedStyle form) "Custom" then customStyle form
  else selectedStyle form.

(** [handleAnalyze], suspended twice: [during_fetch] and
    [during_generate] are what other handlers do in the meantime. *)
Definition handleAnalyze_among (during_fetch during_generate : Meanwhile)
  : Handler unit :=
  setError None ;;;
  setInfographicData None ;;;
  setInfographic3DData None ;;;
  setCurrentFileTree None ;;;
  match RepoAnalyzer.parseRepoInput (newURL platform) (repoInput form) with
  | None => setError (Some invalid_format)
  | Some repoDetails =>
      setLoading true ;;;
      setCurrentRepoName (repo repoDetails) ;;;
      Prog.finally
        (Prog.try_catch
           (setLoadingStage "CONNECTING TO GITHUB" ;;;
            fileTree <- Prog.await during_fetch
                          (on_github
                             (GithubService.fetchRepoFileTree
                                (remote platform) (owner repoDetails)
                                (repo repoDetails))) ;;
            (if (length fileTree =? 0)%nat
             then Prog.throw (Error no_relevant_files)
             else Prog.ret tt) ;;;
            setCurrentFileTree (Some fileTree) ;;;
            setLoadingStage "ANALYZING STRUCTURE & GENERATING" ;;;
            infographicBase64 <-
              Prog.await during_generate
                (on_gemini
                   (GeminiService.generateInfographic
                      (ai platform) (repo repoDetails) fileTree styleToUse
                      false (selectedLanguage form))) ;;
            match infographicBase64 with
            | Some image =>
                setInfographicData (Some image) ;;;
                addToHistory (repo repoDetails) image false styleToUse
            | None => Prog.throw (Error no_visual)
            end)
           handleApiError)
        (setLoading false ;;; setLoadingStage "")
  end.

(** The run of [handleAnalyze] during which no other handler runs. *)
Definition handleAnalyze : Handler unit :=
  handleAnalyze_among undisturbed undisturbed.

(** The handler reads [currentFileTree] and [currentRepoName] as they are
    when it is called; [during_generate] is what other handlers do while it
    is suspended. *)
Definition handleGenerate3D (during_generate : Meanwhile) : Handler unit :=
  fun w =>
    match currentFileTree (view w) with
    | None => (Return tt, w)
    | Some fileTree =>
        let repoName := currentRepoName (view w) in
        if negb (truthy repoName) then (Return tt, w)
        else
          (setGenerating3D true ;;;
           Prog.finally
             (Prog.try_catch
                (data <- Prog.await during_generate
                           (on_gemini
                              (GeminiService.generateInfographic
                                 (ai platform) repoName fileTree styleToUse
                                 true (selectedLanguage form))) ;;
                 match data with
                 | Some image =>
                     setInfographic3DData (Some image) ;;;
                     addToHistory repoName image true styleToUse
                 | None => Prog.ret tt
                 end)
                handleApiError)
             (setGenerating3D false)) w
    end.

Definition loadFromHistory (item : History.RepoHistoryItem) : Handler unit :=
  browser_emit ScrollToTop ;;;
  setCurrentRepoName (History.repoName item) ;;;
  if History.is3D item then
    setInfographic3DData (Some (History.imageData item))
  else
    setInfographicData (Some (History.imageData item)) ;;;
    setInfographic3DData None.

End WithPlatform.

End AnalyzerView.

(** ** Vocabulary for the statements about the added code *)

Module Facts.
Import JsString Gemini.

(** The candidate raised the exception [e]: the request failed, or the body
    of a success could not be read. *)
Definition raised (o : FetchOutcome) (e : JsError) : Prop :=
  o = NetworkFailure e \/
  exists resp, o = Responded resp /\ ok resp = true /\
               (body resp = Malformed e \/
                exists t, body resp = Unfilterable t e).

(** The candidate answered with a status of 403 or 429. *)
Definition throttled (o : FetchOutcome) : Prop :=
  exists resp, o = Responded resp /\ (status resp = 403 \/ status resp = 429)%Z.

(** The candidate ended the call with the error [e]. *)
Definition stops (o : FetchOutcome) (e : JsError) : Prop :=
  throttled o /\ e = GithubService.RateLimited \/
  raised o e /\ includes (message e) "rate limit" = true.

(** The candidate is a success whose body parses with a truthy
    [truncated], whether or not its tree can then be filtered. *)
Definition truncated_answer (o : FetchOutcome) : bool :=
  match o with
  | Responded r => ok r && GithubService.truncated_flag (body r)
  | NetworkFailure _ => false
  end.

(** The warning a tried candidate brings about. *)
Definition warning (o : FetchOutcome) : list Event :=
  if truncated_answer o
  then [ConsoleWarn GithubService.truncated_warning] else [].

(** The five ways in which a call of the resolver ends, with the log each
    leaves. *)
Inductive Ending (remote : Remote) (o r : string)
  : Completion (list RepoFileTree) * list Event -> Prop :=
| main_answers d :
    Outcome.succeeds_with (remote (GithubService.tree_url o r "main")) d ->
    Ending remote o r
      (Return (Filter.filter_tree (tree d)),
       Request (GithubService.tree_url o r "main")
       :: warning (remote (GithubService.tree_url o r "main")))
| main_stops e :
    stops (remote (GithubService.tree_url o r "main")) e ->
    Ending remote o r
      (Throw e,
       Request (GithubService.tree_url o r "main")
       :: warning (remote (GithubService.tree_url o r "main")))
| master_answers d :
    Outcome.falls_through (remote (GithubService.tree_url o r "main")) = true ->
    Outcome.succeeds_with (remote (GithubService.tree_url o r "master")) d ->
    Ending remote o r
      (Return (Filter.filter_tree (tree d)),
       Request (GithubService.tree_url o r "main")
       :: warning (remote (GithubService.tree_url o r "main"))
       ++ Request (GithubService.tree_url o r "master")
       :: warning (remote (GithubService.tree_url o r "master")))
| master_stops e :
    Outcome.falls_through (remote (GithubService.tree_url o r "main")) = true ->
    stops (remote (GithubService.tree_url o r "master")) e ->
    Ending remote o r
      (Throw e,
       Request (GithubService.tree_url o r "main")
       :: warning (remote (GithubService.tree_url o r "main"))
       ++ Request (GithubService.tree_url o r "master")
       :: warning (remote (GithubService.tree_url o r "master")))
| both_fall_through errors :
    Outcome.falls_through (remote (GithubService.tree_url o r "main")) = true ->
    Outcome.falls_through (remote (GithubService.tree_url o r "master")) = true ->
    (errors = [] \/
     exists e, errors = [ConsoleError "Error fetching repo tree:" e] /\
               raised (remote (GithubService.tree_url o r "master")) e) ->
    Ending remote o r
      (Throw GithubService.NotFound,
       Request (GithubService.tree_url o r "main")
       :: warning (remote (GithubService.tree_url o r "main"))
       ++ Request (GithubService.tree_url o r "master")
       :: warning (remote (GithubService.tree_url o r "master")) ++ errors).

(** Every code unit of the string is white space for [trim]. *)
Definition blank (s : string) : bool :=
  forallb RepoAnalyzer.is_white_space (list_ascii_of_string s).

(** A string that is empty or begins with something else than white
    space. *)
Definition starts_clean (x : string) : Prop :=
  match x with
  | EmptyString => True
  | String c _ => RepoAnalyzer.is_white_space c = false
  end.

(** The distinct elements of a list, each at the place where it first
    appears. *)
Fixpoint distinct (l : list string) : list string :=
  match l with
  | [] => []
  | x :: rest => x :: List.filter (fun y => negb (String.eqb y x)) (distinct rest)
  end.

(** The input as the parser reads it. *)
Definition clean (input : string) : string :=
  RepoAnalyzer.strip_trailing_slash (RepoAnalyzer.trim input).

(** The part carries inline data that is not empty. *)
Definition carries (p : Part) (d : string) : Prop :=
  exists blob, inlineData p = Some blob /\ data blob = Some d /\ d <> "".

(** The part has no inline data, or empty inline data. *)
Definition bare (p : Part) : Prop := forall d, ~ carries p d.

(** The request [generateInfographic] sends. *)
Definition infographic_request (repoName : string) (fileTree : list RepoFileTree)
           (style : string) (is3D : bool) (language : string)
  : GenerateContentParameters :=
  mkRequest "gemini-3-pro-image-preview"
    (Parts [TextPart
              (GeminiService.Infographic.prompt repoName
                 (GeminiService.Infographic.limitedTree fileTree)
                 (GeminiService.Infographic.baseStylePrompt
                    (GeminiService.Infographic.styleGuidelines style is3D)
                    language)
                 (GeminiService.Infographic.dimensionPrompt is3D)
                 language)])
    ImageModality.

(** The two requests [generateArticleInfographic] sends. *)
Definition analysis_request (url language : string) : GenerateContentParameters :=
  mkRequest "gemini-3-pro-image-preview"
    (PlainText (GeminiService.Article.analysisPrompt url language))
    GoogleSearchTool.

Definition render_request (structuralSummary style language : string)
  : GenerateContentParameters :=
  mkRequest "gemini-3-pro-image-preview"
    (Parts [TextPart
              (GeminiService.Article.imagePrompt structuralSummary
                 (GeminiService.Article.styleGuidelines style) language)])
    ImageModality.


(** The requests in a log of the service, oldest first. *)
Definition generated (log : list GeminiEvent) : list GenerateContentParameters :=
  flat_map (fun ev => match ev with GenerateContent r => [r] | _ => [] end) log.

End Facts.

Module MoreExamples.
Import Gemini.

(** A response whose first candidate holds a part without data, a part
    with empty data and a part with an image. *)
Definition image_response : GenerateContentResponse :=
  mkGenerated
    (Some [mkCandidate
             (Some (mkContent
                      (Some [mkPart None;
                             mkPart (Some (mkBlob (Some "")));
                             mkPart (Some (mkBlob (Some "iVBORw0KGgo=")))])))
             None])
    None.

Definition text_response (t : string) : GenerateContentResponse :=
  mkGenerated None (Some t).

(** An analysis answer grounded in three chunks, two of them for one page. *)
Definition grounded_response : GenerateContentResponse :=
  mkGenerated
    (Some [mkCandidate None
             (Some (mkGrounding
                      (Some [mkChunk (Some (mkWeb (Some "https://a.example") (Some "A")));
                             mkChunk (Some (mkWeb (Some "https://b.example") None));
                             mkChunk None;
                             mkChunk (Some (mkWeb (Some "https://a.example")
                                                   (Some "A, again")))])))])
    (Some "HEADLINE: Example").

Definition quota_error : JsError := Error "Requested entity was not found.".

Definition platform (main master : FetchOutcome) (ai : Model)
  : AnalyzerView.Platform :=
  AnalyzerView.mkPlatform Examples.toy_URL (Examples.remote_of main master) ai
                          (fun _ => true) 1700000000000 1700000000002.

Definition form (input : string) : AnalyzerView.Form :=
  AnalyzerView.mkForm input "Custom" "pastel" "English".

(** Two items of an earlier history, and the clicks on them during an
    [await]. *)
Definition item_3d : History.RepoHistoryItem :=
  History.mkItem "1699999999000" "other" "AAAA" true "Neon Cyberpunk"
                 1699999999001.

Definition item_2d : History.RepoHistoryItem :=
  History.mkItem "1699999998000" "other" "BBBB" false "Corporate Minimal"
                 1699999998001.

Definition click (item : History.RepoHistoryItem) : AnalyzerView.Meanwhile :=
  fun w => snd (AnalyzerView.loadFromHistory item w).


(** A page whose history holds the two items. *)
Definition visited : AnalyzerView.World :=
  AnalyzerView.mkWorld
    (AnalyzerView.mkState None false "" None None false None ""
                          [item_3d; item_2d])
    [] [] [].

(** A page that shows the 2D image of a repository and holds its files. *)
Definition analysed : AnalyzerView.World :=
  AnalyzerView.mkWorld
    (AnalyzerView.mkState None false "" (Some "CCCC") None false
                          (Some [mkEntry "src/index.ts" "blob"]) "demo"
                          [item_3d; item_2d])
    [] [] [].

End MoreExamples.

(** ** Proof automation for the service and the handlers *)

Ltac run_service :=
  cbv beta iota zeta delta
    [GeminiService.generateInfographic GeminiService.askRepoQuestion
     GeminiService.askNodeSpecificQuestion
     GeminiService.generateArticleInfographic
     GeminiService.editImageWithGemini GeminiService.generateContent
     GeminiService.emit GeminiService.report
     Prog.bind Prog.try_catch Prog.ret Prog.throw Prog.modify Prog.when].

Ltac project :=
  cbn [AnalyzerView.view AnalyzerView.github AnalyzerView.gemini
       AnalyzerView.browser AnalyzerView.error AnalyzerView.loading
       AnalyzerView.loadingStage AnalyzerView.infographicData
       AnalyzerView.infographic3DData AnalyzerView.generating3D
       AnalyzerView.currentFileTree AnalyzerView.currentRepoName
       AnalyzerView.repoHistory fst snd].

Ltac run_among :=
  cbv beta iota zeta delta
    [AnalyzerView.handleAnalyze AnalyzerView.handleAnalyze_among
     AnalyzerView.undisturbed Prog.await AnalyzerView.handleGenerate3D
     AnalyzerView.handleApiError AnalyzerView.addToHistory
     AnalyzerView.handleAddRepoHistory AnalyzerView.loadFromHistory
     AnalyzerView.setError AnalyzerView.setLoading AnalyzerView.setLoadingStage
     AnalyzerView.setInfographicData AnalyzerView.setInfographic3DData
     AnalyzerView.setGenerating3D AnalyzerView.setCurrentFileTree
     AnalyzerView.setCurrentRepoName AnalyzerView.set_view
     AnalyzerView.browser_emit AnalyzerView.on_github AnalyzerView.on_gemini
     Prog.bind Prog.try_catch Prog.finally Prog.ret Prog.throw Prog.modify
     Prog.when Prog.zoom];
  project.

Ltac run_handler :=
  cbv beta iota zeta delta
    [AnalyzerView.handleAnalyze AnalyzerView.handleAnalyze_among
     AnalyzerView.undisturbed Prog.await AnalyzerView.handleGenerate3D
     AnalyzerView.handleApiError AnalyzerView.addToHistory
     AnalyzerView.handleAddRepoHistory AnalyzerView.loadFromHistory
     AnalyzerView.setError AnalyzerView.setLoading AnalyzerView.setLoadingStage
     AnalyzerView.setInfographicData AnalyzerView.setInfographic3DData
     AnalyzerView.setGenerating3D AnalyzerView.setCurrentFileTree
     AnalyzerView.setCurrentRepoName AnalyzerView.set_view
     AnalyzerView.browser_emit AnalyzerView.on_github AnalyzerView.on_gemini
     Prog.bind Prog.try_catch Prog.finally Prog.ret Prog.throw Prog.modify
     Prog.when Prog.zoom
     AnalyzerView.view AnalyzerView.github AnalyzerView.gemini
     AnalyzerView.browser AnalyzerView.error AnalyzerView.loading
     AnalyzerView.loadingStage AnalyzerView.infographicData
     AnalyzerView.infographic3DData AnalyzerView.generating3D
     AnalyzerView.currentFileTree AnalyzerView.currentRepoName
     AnalyzerView.repoHistory].

Import JsString Filter GithubService RepoAnalyzer Policy Outcome.

(** * Properties *)

(** ** Strings *)

Section StringFacts.

Lemma append_nil_r (s : string) : s ++ "" = s.
Proof. induction s as [|c s IH]; simpl; congruence. Qed.

Lemma append_assoc (a b c : string) : (a ++ b) ++ c = a ++ b ++ c.
Proof. induction a as [|x a IH]; simpl; congruence. Qed.

Lemma append_cancel_l (p a b : string) : p ++ a = p ++ b -> a = b.
Proof.
  induction p as [|c p IH]; simpl; intros H; [exact H|].
  injection H as H. auto.
Qed.

Lemma prefix_iff (p s : string) :
  String.prefix p s = true <-> exists rest, s = p ++ rest.
Proof.
  revert s. induction p as [|c p IH]; intros s.
  - split; [intros _; exists s; reflexivity | destruct s; reflexivity].
  - destruct s as [|d s]; simpl.
    + split; [discriminate | intros [rest H]; discriminate].
    + destruct (ascii_dec c d) as [->|Hne].
      * rewrite IH. split; intros [rest H]; exists rest.
        -- now rewrite H.
        -- now injection H.
      * split; [discriminate|].
        intros [rest H]. injection H as H1 _. congruence.
Qed.

Lemma includes_iff (s sub : string) :
  includes s sub = true <-> contains s sub.
Proof.
  unfold contains. induction s as [|c s IH]; cbn [includes].
  - rewrite orb_false_r, prefix_iff. split.
    + intros [rest H]. exists "", rest. exact H.
    + intros [[|x before] [after H]]; [now exists after|discriminate].
  - rewrite orb_true_iff, prefix_iff, IH. split.
    + intros [[rest H]|[before [after H]]].
      * exists "", rest. exact H.
      * exists (String c before), after. simpl. now rewrite H.
    + intros [[|x before] [after H]].
      * left. now exists after.
      * right. simpl in H. injection H as _ H. now exists before, after.
Qed.

Lemma startsWith_dot_iff (s : string) :
  startsWith s "." = true <-> begins_with_dot s.
Proof. apply prefix_iff. Qed.

End StringFacts.

(** ** The pattern and the filter *)

Section FilterFacts.

Lemma lower_canonicalize (c : ascii) : lower (canonicalize c) = lower c.
Proof. destruct c as [[] [] [] [] [] [] [] []]; reflexivity. Qed.

Lemma canonicalize_lower (c : ascii) : canonicalize (lower c) = canonicalize c.
Proof. destruct c as [[] [] [] [] [] [] [] []]; reflexivity. Qed.

Lemma canonicalize_eq_iff (x y : ascii) :
  canonicalize x = canonicalize y <-> lower x = lower y.
Proof.
  split; intros H.
  - rewrite <- (lower_canonicalize x), <- (lower_canonicalize y). now rewrite H.
  - rewrite <- (canonicalize_lower x), <- (canonicalize_lower y). now rewrite H.
Qed.

Lemma eqb_ci_iff (a b : string) :
  eqb_ci a b = true <-> toLowerCase a = toLowerCase b.
Proof.
  revert b. induction a as [|x a IH]; intros [|y b]; simpl;
    try (split; [reflexivity || discriminate | reflexivity || discriminate]).
  rewrite andb_true_iff, Ascii.eqb_eq, canonicalize_eq_iff, IH.
  split; [intros [-> ->]; reflexivity | intros H; injection H; auto].
Qed.

Lemma extensions_lower (ext : string) :
  In ext extensions -> toLowerCase ext = ext.
Proof.
  unfold extensions. simpl.
  intros H; repeat (destruct H as [<-|H]; [reflexivity|]); destruct H.
Qed.

Lemma ext_re_at_iff (s : string) :
  ext_re_at s = true <->
  exists suffix ext,
    s = "." ++ suffix /\ In ext extensions /\ toLowerCase suffix = ext.
Proof.
  unfold ext_re_at. split.
  - destruct s as [|c rest]; [discriminate|].
    destruct (ascii_dec c ".") as [->|Hne].
    + intros H. apply existsb_exists in H as [ext [Hin Heq]].
      apply eqb_ci_iff in Heq. rewrite (extensions_lower _ Hin) in Heq.
      now exists rest, ext.
    + destruct c as [[] [] [] [] [] [] [] []]; try discriminate.
      now contradiction Hne.
  - intros [suffix [ext [-> [Hin Heq]]]].
    change ("." ++ suffix) with (String "." suffix). cbv beta iota.
    apply existsb_exists. exists ext. split; [exact Hin|].
    apply eqb_ci_iff. now rewrite (extensions_lower _ Hin).
Qed.

Lemma ext_re_match_iff (s : string) :
  ext_re_match s = true <-> ends_with_extension s.
Proof.
  unfold ends_with_extension. induction s as [|c s IH]; cbn [ext_re_match].
  - split; [discriminate|].
    intros [[|x stem] [suffix [ext [H _]]]]; discriminate.
  - rewrite orb_true_iff, ext_re_at_iff, IH. split.
    + intros [[suffix [ext [H1 H2]]]|[stem [suffix [ext [H1 H2]]]]].
      * exists "", suffix, ext. now split.
      * exists (String c stem), suffix, ext. split; [|exact H2].
        simpl. now rewrite H1.
    + intros [[|x stem] [suffix [ext [H1 H2]]]].
      * left. now exists suffix, ext.
      * right. simpl in H1. injection H1 as _ H1. now exists stem, suffix, ext.
Qed.

Lemma negb_includes_iff (s sub : string) :
  negb (includes s sub) = true <-> ~ contains s sub.
Proof.
  rewrite negb_true_iff, <- includes_iff.
  destruct (includes s sub); split; congruence.
Qed.

Lemma keep_iff (e : RepoFileTree) : keep e = true <-> relevant e.
Proof.
  unfold keep, relevant.
  rewrite !andb_true_iff, String.eqb_eq, ext_re_match_iff, !negb_includes_iff.
  rewrite negb_true_iff, <- startsWith_dot_iff.
  destruct (startsWith (path e) "."); intuition congruence.
Qed.

Lemma filter_keep_Kept (raw : list RepoFileTree) :
  Kept raw (List.filter keep raw).
Proof.
  induction raw as [|e raw IH]; simpl; [constructor|].
  destruct (keep e) eqn:K.
  - apply Kept_take; [now apply keep_iff | exact IH].
  - apply Kept_drop; [|exact IH].
    intros R. apply keep_iff in R. congruence.
Qed.

(** [Kept] determines its output: no other list is the filtered one. *)
Lemma Kept_unique (raw out out' : list RepoFileTree) :
  Kept raw out -> Kept raw out' -> out = out'.
Proof.
  intros K. revert out'.
  induction K; intros out' K'; inversion K'; subst;
    try reflexivity; try contradiction; auto using f_equal.
Qed.

End FilterFacts.

(** ** One iteration of the loop *)

Lemma rate_limit_recognised : includes (message RateLimited) "rate limit" = true.
Proof. reflexivity. Qed.

Lemma rate_limit_status_not_ok (resp : Response) :
  (status resp = 403 \/ status resp = 429)%Z -> ok resp = false.
Proof. unfold ok. intros [-> | ->]; reflexivity. Qed.

Section Attempt.
Variable remote : Remote.
Variables (bs : list string) (o r b : string).

Let url := tree_url o r b.

Lemma attempt_success log resp d :
  remote url = Responded resp -> ok resp = true -> body resp = Json d ->
  attempt remote bs o r b log =
  (Return (Some (filter_tree (tree d))),
   (log ++ Request url ::
      (if truncated d then [ConsoleWarn truncated_warning] else []))%list).
Proof.
  intros H1 H2 H3. run_attempt. fold url. rewrite H1, H2, H3.
  destruct (truncated d); rewrite <- ?app_assoc; reflexivity.
Qed.

Lemma attempt_rate_limited log resp :
  remote url = Responded resp ->
  (status resp = 403 \/ status resp = 429)%Z ->
  attempt remote bs o r b log = (Throw RateLimited, (log ++ [Request url])%list).
Proof.
  intros H1 H2. run_attempt. fold url.
  rewrite H1, (rate_limit_status_not_ok _ H2).
  replace ((status resp =? 403)%Z || (status resp =? 429)%Z) with true
    by (destruct H2 as [-> | ->]; reflexivity).
  rewrite rate_limit_recognised. reflexivity.
Qed.

Lemma attempt_falls_through log :
  falls_through (remote url) = true ->
  exists events,
    attempt remote bs o r b log =
    (Return None, (log ++ Request url :: events)%list) /\
    requests events = [].
Proof.
  unfold falls_through. run_attempt. fold url.
  destruct (remote url) as [[st [d|e|t e]]|e]; cbn [body status message];
    split_ifs; try discriminate; intros _;
    eexists; (split; [rewrite <- ?app_assoc; reflexivity|]); reflexivity.
Qed.

(** An exception whose message holds [rate limit] leaves the function,
    whatever raised it. *)
Lemma attempt_rethrows log e :
  (remote url = NetworkFailure e \/
   exists resp, remote url = Responded resp /\ ok resp = true /\
                body resp = Malformed e) ->
  includes (message e) "rate limit" = true ->
  attempt remote bs o r b log = (Throw e, (log ++ [Request url])%list).
Proof.
  intros [H|[resp [H [H2 H3]]]] Hm; run_attempt; fold url;
    rewrite H, ?H2, ?H3, Hm; reflexivity.
Qed.

(** An iteration only appends to the log, and what it appends and how it
    completes do not depend on what the log held. *)
Lemma attempt_log log :
  attempt remote bs o r b log =
  (fst (attempt remote bs o r b []),
   (log ++ snd (attempt remote bs o r b []))%list).
Proof.
  run_attempt. fold url.
  destruct (remote url) as [[st [d|e|t e]]|e]; cbn [body status message];
    split_ifs; cbn [fst snd app]; rewrite <- ?app_assoc; reflexivity.
Qed.

End Attempt.

(** What an iteration does is decided by the response of its own URL. *)
Lemma attempt_ext (remote1 remote2 : Remote) bs o r b log :
  remote1 (tree_url o r b) = remote2 (tree_url o r b) ->
  attempt remote1 bs o r b log = attempt remote2 bs o r b log.
Proof. intros H. run_attempt. rewrite H. reflexivity. Qed.

(** The [truncated] flag adds a warning to the log and nothing else. *)
Lemma attempt_with_truncated (remote : Remote) flag bs o r b :
  fst (attempt (fun u => with_truncated flag (remote u)) bs o r b []) =
  fst (attempt remote bs o r b []) /\
  List.filter (fun ev => negb (is_warning ev))
    (snd (attempt (fun u => with_truncated flag (remote u)) bs o r b [])) =
  List.filter (fun ev => negb (is_warning ev))
    (snd (attempt remote bs o r b [])).
Proof.
  run_attempt.
  destruct (remote (tree_url o r b)) as [[st [d|e|t e]]|e];
    cbn [with_truncated body status message truncated tree];
    unfold ok; cbn [status]; split_ifs; split;
    reflexivity || congruence.
Qed.

(** ** The loop over the two candidates *)

Lemma try_branches_cons (remote : Remote) bs o r b rest log :
  try_branches remote bs o r (b :: rest) log =
  match attempt remote bs o r b log with
  | (Return (Some files), log') => (Return (Some files), log')
  | (Return None, log') => try_branches remote bs o r rest log'
  | (Throw e, log') => (Throw e, log')
  end.
Proof.
  cbn [try_branches]. unfold Async.bind, Async.ret.
  destruct (attempt remote bs o r b log) as [[[files|]|e] log']; reflexivity.
Qed.

Lemma resolve_unfold (remote : Remote) (o r : string) :
  resolve remote o r =
  match attempt remote branches o r "main" [] with
  | (Return (Some files), log) => (Return files, log)
  | (Return None, log) =>
      match attempt remote branches o r "master" log with
      | (Return (Some files), log') => (Return files, log')
      | (Return None, log') => (Throw NotFound, log')
      | (Throw e, log') => (Throw e, log')
      end
  | (Throw e, log) => (Throw e, log)
  end.
Proof.
  unfold resolve, fetchRepoFileTree, Async.bind.
  change (try_branches remote branches o r branches)
    with (try_branches remote branches o r ["main"; "master"]).
  rewrite try_branches_cons.
  destruct (attempt remote branches o r "main" []) as [[[files|]|e] log];
    try reflexivity.
  rewrite try_branches_cons.
  destruct (attempt remote branches o r "master" log) as [[[files'|]|e'] log'];
    reflexivity.
Qed.

Lemma candidate_urls_differ (o r : string) :
  tree_url o r "main" <> tree_url o r "master".
Proof.
  unfold tree_url. intros H.
  repeat apply append_cancel_l in H. discriminate H.
Qed.

Lemma requests_app (l1 l2 : list Event) :
  requests (l1 ++ l2) = (requests l1 ++ requests l2)%list.
Proof. apply flat_map_app. Qed.

Lemma requests_quiet (url : string) (events : list Event) :
  requests events = [] -> requests (Request url :: events) = [url].
Proof.
  intros H. change (Request url :: events) with ([Request url] ++ events)%list.
  now rewrite requests_app, H.
Qed.

(** ** The claims about the resolver *)

(** C1. When the request for the first candidate, main, answers with status
    403 or 429, the call fails at once with the rate-limit error, and the
    only request it issued is the one for main: none for master. *)
Theorem C1_rate_limit_aborts (remote : Remote) (o r : string) (resp : Response) :
  remote (tree_url o r "main") = Responded resp ->
  (status resp = 403 \/ status resp = 429)%Z ->
  resolve remote o r = (Throw RateLimited, [Request (tree_url o r "main")]) /\
  ~ In (Request (tree_url o r "master")) (snd (resolve remote o r)).
Proof.
  intros H1 H2.
  assert (E : resolve remote o r =
              (Throw RateLimited, [Request (tree_url o r "main")])).
  { rewrite resolve_unfold, (attempt_rate_limited _ _ _ _ _ _ _ H1 H2).
    reflexivity. }
  split; [exact E|].
  rewrite E. cbn [snd In]. intros [H|[]].
  apply (candidate_urls_differ o r). congruence.
Qed.

Lemma C1_rate_limit_aborts_witness :
  resolve (Examples.remote_of Examples.throttled (Examples.success []))
          "octo" "demo" =
  (Throw RateLimited, [Request (tree_url "octo" "demo" "main")]) /\
  ~ In (Request (tree_url "octo" "demo" "master"))
       (snd (resolve (Examples.remote_of Examples.throttled (Examples.success []))
                     "octo" "demo")).
Proof.
  apply (C1_rate_limit_aborts _ "octo" "demo"
           (mkResponse 403 (Json (mkData false None)))).
  - reflexivity.
  - left. reflexivity.
Defined.

(** The call's completion and requests when the first candidate that does
    not fall through is a success. *)
Lemma resolve_answered (remote : Remote) (o r : string) (d : TreeData) :
  answered_with remote o r d ->
  fst (resolve remote o r) = Return (filter_tree (tree d)) /\
  requests (snd (resolve remote o r)) =
  if falls_through (remote (tree_url o r "main"))
  then [tree_url o r "main"; tree_url o r "master"]
  else [tree_url o r "main"].
Proof.
  intros [[resp [H1 [H2 H3]]] | [Hf [resp [H1 [H2 H3]]]]];
    rewrite resolve_unfold.
  - rewrite (attempt_success _ _ _ _ _ _ _ _ H1 H2 H3). cbn [fst snd app].
    rewrite H1. unfold falls_through. rewrite H2, H3.
    split; [reflexivity|]. destruct (truncated d); reflexivity.
  - destruct (attempt_falls_through remote branches o r "main" [] Hf)
      as [errors [E Herr]].
    rewrite E, (attempt_success _ _ _ _ _ _ _ _ H1 H2 H3), Hf.
    cbn [fst snd]. split; [reflexivity|].
    rewrite !requests_app, (requests_quiet _ _ Herr).
    destruct (truncated d); reflexivity.
Qed.

Lemma not_found_falls_through (resp : Response) :
  status resp = 404%Z -> falls_through (Responded resp) = true.
Proof. intros H. unfold falls_through, ok. rewrite H. reflexivity. Qed.

(** The markers are matched as text, wherever they occur in the path. *)
Example markers_match_as_text :
  keep (mkEntry "src/rebuild/a.ts" "blob") = false /\
  keep (mkEntry "src/node_modules.ts" "blob") = false /\
  keep (mkEntry "src/.cache/a.ts" "blob") = true /\
  keep (mkEntry "SRC/MAIN.TSX" "blob") = true.
Proof. repeat split; reflexivity. Qed.

(** C2, as the claim states it, fails: src/rebuild/a.ts is a blob with a
    recognized extension, none of its directories is node_modules, dist or
    build, and it does not begin with a dot, yet the call does not return
    it, because the text [build/] occurs in it. *)
Lemma C2_directory_segment_counterexample :
  ~ (forall (remote : Remote) (o r : string) (d : TreeData) (e : RepoFileTree),
        answered_with remote o r d ->
        In e (raw_tree d) ->
        Segments.relevant e ->
        exists files, fst (resolve remote o r) = Return files /\ In e files).
Proof.
  intros H.
  destruct (H (Examples.remote_of
                 (Examples.success [mkEntry "src/rebuild/a.ts" "blob"])
                 Examples.not_found)
              "octo" "demo"
              (mkData false (Some [mkEntry "src/rebuild/a.ts" "blob"]))
              (mkEntry "src/rebuild/a.ts" "blob"))
    as [files [E Hin]].
  - left. eexists. split; [reflexivity|]. split; reflexivity.
  - now left.
  - unfold Segments.relevant, Segments.has_directory. cbn.
    split; [reflexivity|]. split.
    + exists "src/rebuild/a", "ts", "ts". split; [reflexivity|].
      split; [|reflexivity]. unfold extensions. cbn. auto.
    + repeat split; try (intuition discriminate).
      intros [rest Hr]. discriminate.
  - change (fst (resolve
                   (Examples.remote_of
                      (Examples.success [mkEntry "src/rebuild/a.ts" "blob"])
                      Examples.not_found) "octo" "demo"))
      with (@Return (list RepoFileTree) []) in E.
    injection E as <-. destruct Hin.
Qed.

(** C2, amended.  When the answering response is a success with body [d],
    the call returns the entries of [d]'s tree that are blobs, whose path
    ends without regard to case in a recognized extension, holds the text
    of none of node_modules, dist/ and build/ at any place, and does not
    begin with a dot: exactly those, in their order.  For the raw tree of
    the specification's example the result is the single entry
    src/index.ts. *)
Theorem C2_filter_policy (remote : Remote) (o r : string) (d : TreeData) :
  answered_with remote o r d ->
  exists files,
    fst (resolve remote o r) = Return files /\
    Kept (raw_tree d) files /\
    (raw_tree d = Examples.spec_tree -> files = [mkEntry "src/index.ts" "blob"]).
Proof.
  intros H. apply resolve_answered in H as [H _].
  exists (filter_tree (tree d)). split; [exact H|]. split.
  - apply filter_keep_Kept.
  - unfold filter_tree. fold (raw_tree d). intros ->. reflexivity.
Qed.

Lemma C2_filter_policy_witness :
  exists files,
    fst (resolve (Examples.remote_of (Examples.success Examples.spec_tree)
                                     Examples.not_found) "octo" "demo")
    = Return files /\
    Kept Examples.spec_tree files /\
    (Examples.spec_tree = Examples.spec_tree ->
     files = [mkEntry "src/index.ts" "blob"]).
Proof.
  apply (C2_filter_policy
           (Examples.remote_of (Examples.success Examples.spec_tree)
                               Examples.not_found)
           "octo" "demo" (mkData false (Some Examples.spec_tree))).
  left. eexists. split; [reflexivity|]. split; reflexivity.
Defined.

(** When every candidate falls through (for instance a 404 for main and
    for master), the call requests both, then fails with the not-found
    error, whose message holds both names, main and master.  A candidate
    falls through when it raises no exception whose message holds
    [rate limit]. *)
Lemma fall_through_ends_not_found (remote : Remote) (o r : string) :
  (forall b, In b branches -> falls_through (remote (tree_url o r b)) = true) ->
  fst (resolve remote o r) = Throw NotFound /\
  requests (snd (resolve remote o r)) =
    [tree_url o r "main"; tree_url o r "master"] /\
  includes (message NotFound) "main" = true /\
  includes (message NotFound) "master" = true.
Proof.
  intros H.
  assert (Hmain := H "main" (or_introl eq_refl)).
  assert (Hmaster := H "master" (or_intror (or_introl eq_refl))).
  rewrite resolve_unfold.
  destruct (attempt_falls_through remote branches o r "main" [] Hmain)
    as [errors [E Herr]].
  rewrite E.
  destruct (attempt_falls_through remote branches o r "master"
              ([] ++ Request (tree_url o r "main") :: errors) Hmaster)
    as [errors' [E' Herr']].
  rewrite E'. cbn [fst snd].
  split; [reflexivity|]. split; [|split; reflexivity].
  rewrite !requests_app, (requests_quiet _ _ Herr).
  rewrite (requests_quiet _ _ Herr'). reflexivity.
Qed.

Example not_found_for_both :
  fst (resolve (Examples.remote_of Examples.not_found Examples.not_found)
               "octo" "demo") = Throw NotFound /\
  requests (snd (resolve (Examples.remote_of Examples.not_found Examples.not_found)
                         "octo" "demo")) =
    [tree_url "octo" "demo" "main"; tree_url "octo" "demo" "master"] /\
  includes (message NotFound) "main" = true /\
  includes (message NotFound) "master" = true.
Proof.
  apply (fall_through_ends_not_found
           (Examples.remote_of Examples.not_found Examples.not_found)
           "octo" "demo").
  intros b Hb. simpl in Hb.
  destruct Hb as [<-|[<-|[]]]; reflexivity.
Qed.

(** C3. The claim does not hold at this input: main answers 404 and master
    answers 200 with the body text [rate limit exceeded].  Both candidates
    were tried and neither gave a tree, yet the call ends with the syntax
    error of the parser and not with the not-found error: line 42 takes the
    error for the rate-limit one. *)
Theorem C3_rate_limit_text_on_last_candidate :
  resolve (Examples.remote_of Examples.not_found Examples.not_json)
          "octo" "demo" =
  (Throw Examples.json_syntax_error,
   [Request Examples.main_url; Request Examples.master_url]) /\
  Examples.json_syntax_error <> NotFound.
Proof. split; [reflexivity|discriminate]. Qed.

(** C4. When the request for main answers 404 and the one for master is a
    success with body [d], the call returns the filtered tree of [d]: the
    entries of master's tree that the policy keeps, exactly those and in
    their order, after requesting main and then master. *)
Theorem C4_falls_back_to_master (remote : Remote) (o r : string)
        (resp : Response) (d : TreeData) :
  remote (tree_url o r "main") = Responded resp ->
  status resp = 404%Z ->
  succeeds_with (remote (tree_url o r "master")) d ->
  fst (resolve remote o r) = Return (filter_tree (tree d)) /\
  Kept (raw_tree d) (filter_tree (tree d)) /\
  requests (snd (resolve remote o r)) =
    [tree_url o r "main"; tree_url o r "master"].
Proof.
  intros H1 H2 H3.
  assert (Hf : falls_through (remote (tree_url o r "main")) = true)
    by (rewrite H1; now apply not_found_falls_through).
  destruct (resolve_answered remote o r d) as [E1 E2].
  - right. split; assumption.
  - rewrite Hf in E2. split; [assumption|]. split; [|assumption].
    apply filter_keep_Kept.
Qed.

Lemma C4_falls_back_to_master_witness :
  fst (resolve (Examples.remote_of Examples.not_found
                                   (Examples.success Examples.spec_tree))
               "octo" "demo")
  = Return [mkEntry "src/index.ts" "blob"] /\
  Kept Examples.spec_tree [mkEntry "src/index.ts" "blob"] /\
  requests (snd (resolve (Examples.remote_of Examples.not_found
                                             (Examples.success Examples.spec_tree))
                         "octo" "demo")) =
    [tree_url "octo" "demo" "main"; tree_url "octo" "demo" "master"].
Proof.
  apply (C4_falls_back_to_master
           (Examples.remote_of Examples.not_found
                               (Examples.success Examples.spec_tree))
           "octo" "demo" (mkResponse 404 (Json (mkData false None)))
           (mkData false (Some Examples.spec_tree))).
  - reflexivity.
  - reflexivity.
  - eexists. split; [reflexivity|]. split; reflexivity.
Defined.

Lemma nothing_relevant_nothing_kept (raw : list RepoFileTree) :
  Forall (fun e => ~ relevant e) raw -> List.filter keep raw = [].
Proof.
  induction 1 as [|e raw He _ IH]; [reflexivity|]. cbn [List.filter].
  destruct (keep e) eqn:K; [|exact IH]. apply keep_iff in K. contradiction.
Qed.

(** C5. When the request for main is a success with body [d], the call
    returns the filtered tree of [d]: the entries of main's tree that the
    policy keeps, exactly those and in their order, and the empty list when
    it keeps none.  Main is the only URL it requested. *)
Theorem C5_first_success_returns (remote : Remote) (o r : string) (d : TreeData) :
  succeeds_with (remote (tree_url o r "main")) d ->
  fst (resolve remote o r) = Return (filter_tree (tree d)) /\
  Kept (raw_tree d) (filter_tree (tree d)) /\
  (Forall (fun e => ~ relevant e) (raw_tree d) -> filter_tree (tree d) = []) /\
  requests (snd (resolve remote o r)) = [tree_url o r "main"] /\
  ~ In (Request (tree_url o r "master")) (snd (resolve remote o r)).
Proof.
  intros H.
  destruct H as [resp [H1 [H2 H3]]].
  rewrite resolve_unfold, (attempt_success _ _ _ _ _ _ _ _ H1 H2 H3).
  cbn [fst snd app]. split; [reflexivity|].
  split; [apply filter_keep_Kept|].
  split; [apply nothing_relevant_nothing_kept|].
  split; [destruct (truncated d); reflexivity|].
  intros Hin.
  assert (Request (tree_url o r "master") = Request (tree_url o r "main")).
  { destruct (truncated d); cbn [In] in Hin; intuition congruence. }
  apply (candidate_urls_differ o r). congruence.
Qed.

(** The witness is a repository whose tree holds no relevant file: the
    filtered list is empty and master is still not tried. *)
Lemma C5_first_success_returns_witness :
  fst (resolve (Examples.remote_of (Examples.success [mkEntry "README.md" "blob"])
                                   (Examples.success Examples.spec_tree))
               "octo" "demo")
  = Return [] /\
  Kept [mkEntry "README.md" "blob"] [] /\
  (Forall (fun e => ~ relevant e) [mkEntry "README.md" "blob"] ->
   @nil RepoFileTree = []) /\
  requests (snd (resolve (Examples.remote_of
                            (Examples.success [mkEntry "README.md" "blob"])
                            (Examples.success Examples.spec_tree))
                         "octo" "demo")) = [tree_url "octo" "demo" "main"] /\
  ~ In (Request (tree_url "octo" "demo" "master"))
       (snd (resolve (Examples.remote_of
                        (Examples.success [mkEntry "README.md" "blob"])
                        (Examples.success Examples.spec_tree))
                     "octo" "demo")).
Proof.
  apply (C5_first_success_returns
           (Examples.remote_of (Examples.success [mkEntry "README.md" "blob"])
                               (Examples.success Examples.spec_tree))
           "octo" "demo" (mkData false (Some [mkEntry "README.md" "blob"]))).
  eexists. split; [reflexivity|]. split; reflexivity.
Defined.

(** An exception raised for the first candidate is absorbed when its
    message does not hold [rate limit]: master is requested, and the call
    completes as the iteration for master does. *)
Lemma transient_error_absorbed (remote : Remote) (o r : string) (e : JsError) :
  (remote (tree_url o r "main") = NetworkFailure e \/
   exists resp, remote (tree_url o r "main") = Responded resp /\
                ok resp = true /\ body resp = Malformed e) ->
  includes (message e) "rate limit" = false ->
  In (tree_url o r "master") (requests (snd (resolve remote o r))) /\
  fst (resolve remote o r) =
  match fst (attempt remote branches o r "master" []) with
  | Return (Some files) => Return files
  | Return None => Throw NotFound
  | Throw e' => Throw e'
  end.
Proof.
  intros H Hm.
  assert (Hf : falls_through (remote (tree_url o r "main")) = true).
  { unfold falls_through.
    destruct H as [->|[resp [-> [-> ->]]]]; now rewrite Hm. }
  rewrite resolve_unfold.
  destruct (attempt_falls_through remote branches o r "main" [] Hf)
    as [errors [E _]].
  rewrite E, attempt_log.
  assert (Hreq : exists rest,
             snd (attempt remote branches o r "master" []) =
             Request (tree_url o r "master") :: rest).
  { run_attempt.
    destruct (remote (tree_url o r "master")) as [[st [d|e'|t e']]|e'];
      cbn [body status message]; split_ifs; cbn [snd app];
      rewrite <- ?app_assoc; cbn [app]; eauto. }
  destruct Hreq as [rest Hreq].
  destruct (attempt remote branches o r "master" []) as [[[files|]|e'] log'];
    cbn [fst snd] in *; subst log';
    (split; [rewrite !requests_app; apply in_or_app; right; now left
            | reflexivity]).
Qed.

(** C6. The claim does not hold at this input: the body of main's 200
    response is the text [rate limit exceeded], parsing it raises a syntax
    error that quotes the text, and the call ends with that error after the
    request for main alone, although master would have answered. *)
Theorem C6_rate_limit_text_is_surfaced :
  resolve (Examples.remote_of Examples.not_json
                              (Examples.success Examples.spec_tree))
          "octo" "demo" =
  (Throw Examples.json_syntax_error, [Request Examples.main_url]).
Proof. reflexivity. Qed.

(** C7. Replacing the truncated flag of every response leaves the call's
    completion (the returned list, or the error) as it was; the log differs
    by warnings at most. *)
Theorem C7_truncation_is_silent (remote : Remote) (o r : string) (flag : bool) :
  fst (resolve (fun u => with_truncated flag (remote u)) o r) =
  fst (resolve remote o r) /\
  List.filter (fun ev => negb (is_warning ev))
    (snd (resolve (fun u => with_truncated flag (remote u)) o r)) =
  List.filter (fun ev => negb (is_warning ev)) (snd (resolve remote o r)).
Proof.
  rewrite !resolve_unfold.
  destruct (attempt_with_truncated remote flag branches o r "main") as [F1 L1].
  destruct (attempt_with_truncated remote flag branches o r "master") as [F2 L2].
  destruct (attempt (fun u => with_truncated flag (remote u)) branches o r "main" [])
    as [c1 l1].
  destruct (attempt remote branches o r "main" []) as [c1' l1'].
  cbn [fst snd] in F1, L1. subst c1'.
  destruct c1 as [[files|]|e]; cbn [fst snd]; try (split; [reflexivity|exact L1]).
  rewrite (attempt_log _ _ _ _ "master" l1), (attempt_log _ _ _ _ "master" l1').
  destruct (attempt (fun u => with_truncated flag (remote u)) branches o r "master" [])
    as [c2 l2].
  destruct (attempt remote branches o r "master" []) as [c2' l2'].
  cbn [fst snd] in *. subst c2'.
  destruct c2 as [[files|]|e]; cbn [fst snd];
    (split; [reflexivity | rewrite !filter_app; congruence]).
Qed.

(** C8. Two calls for the same owner and repository, against remotes that
    answer the two candidate URLs alike, complete alike: the same list in
    the same order (or the same error), and the same log. *)
Theorem C8_same_responses_same_result (remote1 remote2 : Remote) (o r : string) :
  (forall b, In b branches ->
             remote1 (tree_url o r b) = remote2 (tree_url o r b)) ->
  resolve remote1 o r = resolve remote2 o r.
Proof.
  intros H. rewrite !resolve_unfold.
  rewrite (attempt_ext remote1 remote2 branches o r "main")
    by (apply H; simpl; auto).
  destruct (attempt remote2 branches o r "main" []) as [[[files|]|e] log];
    try reflexivity.
  rewrite (attempt_ext remote1 remote2 branches o r "master")
    by (apply H; simpl; auto).
  reflexivity.
Qed.

(** The two remotes of the witness differ on every other URL. *)
Lemma C8_same_responses_same_result_witness :
  resolve (Examples.remote_of Examples.not_found
                              (Examples.success Examples.spec_tree))
          "octo" "demo" =
  resolve (fun url =>
             if String.eqb url Examples.main_url then Examples.not_found
             else if String.eqb url Examples.master_url
                  then Examples.success Examples.spec_tree
                  else Examples.throttled)
          "octo" "demo".
Proof.
  apply (C8_same_responses_same_result
           (Examples.remote_of Examples.not_found
                               (Examples.success Examples.spec_tree))
           (fun url =>
              if String.eqb url Examples.main_url then Examples.not_found
              else if String.eqb url Examples.master_url
                   then Examples.success Examples.spec_tree
                   else Examples.throttled)
           "octo" "demo").
  intros b Hb. simpl in Hb.
  destruct Hb as [<-|[<-|[]]]; reflexivity.
Defined.

(** C10. When the answering response is a success whose body has no tree,
    the call returns the empty list, and requests nothing after the
    candidate that answered. *)
Theorem C10_missing_tree_is_empty (remote : Remote) (o r : string) (d : TreeData) :
  tree d = None ->
  answered_with remote o r d ->
  fst (resolve remote o r) = Return [] /\
  requests (snd (resolve remote o r)) =
  if falls_through (remote (tree_url o r "main"))
  then [tree_url o r "main"; tree_url o r "master"]
  else [tree_url o r "main"].
Proof.
  intros Ht H. apply resolve_answered in H as [E1 E2].
  rewrite Ht in E1. split; assumption.
Qed.

Lemma C10_missing_tree_is_empty_witness :
  fst (resolve (Examples.remote_of Examples.success_without_tree
                                   (Examples.success Examples.spec_tree))
               "octo" "demo") = Return [] /\
  requests (snd (resolve (Examples.remote_of Examples.success_without_tree
                                             (Examples.success Examples.spec_tree))
                         "octo" "demo")) =
  if falls_through
       (Examples.remote_of Examples.success_without_tree
                           (Examples.success Examples.spec_tree)
                           (tree_url "octo" "demo" "main"))
  then [tree_url "octo" "demo" "main"; tree_url "octo" "demo" "master"]
  else [tree_url "octo" "demo" "main"].
Proof.
  apply (C10_missing_tree_is_empty
           (Examples.remote_of Examples.success_without_tree
                               (Examples.success Examples.spec_tree))
           "octo" "demo" (mkData false None)).
  - reflexivity.
  - left. eexists. split; [reflexivity|]. split; reflexivity.
Defined.

(** ** The claim about the caller's parser *)

Lemma truthy_nonempty (s : string) : truthy s = true -> s <> "".
Proof. destruct s; [discriminate | intros _; discriminate]. Qed.

Lemma bare_token_nonempty (clean : string) (ref : RepositoryReference) :
  match split "/" clean with
  | [o; r] => if truthy o && truthy r then Some (mkRef o r) else None
  | _ => None
  end = Some ref ->
  owner ref <> "" /\ repo ref <> "".
Proof.
  destruct (split "/" clean) as [|o [|r [|x rest]]]; try discriminate.
  destruct (truthy o) eqn:To; [|discriminate].
  destruct (truthy r) eqn:Tr; [|discriminate].
  intros H. injection H as <-. cbn [owner repo].
  split; now apply truthy_nonempty.
Qed.

(** C9. Whatever the platform's URL parser answers, a reference returned by
    [parseRepoInput] has a non-empty owner and a non-empty repo, on the URL
    path and on the bare-token path alike. *)
Theorem C9_parsed_fields_nonempty
        (newURL : string -> option URL) (input : string)
        (ref : RepositoryReference) :
  parseRepoInput newURL input = Some ref ->
  owner ref <> "" /\ repo ref <> "".
Proof.
  unfold parseRepoInput.
  set (clean := strip_trailing_slash (trim input)).
  destruct (newURL clean) as [url|]; [|apply bare_token_nonempty].
  destruct (String.eqb (hostname url) "github.com"); [|apply bare_token_nonempty].
  destruct (List.filter truthy (split "/" (pathname url)))
    as [|a [|b rest]] eqn:F; try apply bare_token_nonempty.
  intros H. injection H as <-. cbn [owner repo].
  assert (Ha : In a (List.filter truthy (split "/" (pathname url))))
    by (rewrite F; simpl; auto).
  assert (Hb : In b (List.filter truthy (split "/" (pathname url))))
    by (rewrite F; simpl; auto).
  apply filter_In in Ha as [_ Ha]. apply filter_In in Hb as [_ Hb].
  split; now apply truthy_nonempty.
Qed.

Lemma C9_parsed_fields_nonempty_witness :
  parseRepoInput Examples.toy_URL "  https://github.com/facebook/react/ " =
    Some (mkRef "facebook" "react") /\
  owner (mkRef "facebook" "react") <> "" /\ repo (mkRef "facebook" "react") <> "".
Proof.
  split; [reflexivity|].
  apply (C9_parsed_fields_nonempty Examples.toy_URL
           "  https://github.com/facebook/react/ " (mkRef "facebook" "react")).
  reflexivity.
Defined.

(** * The rest of the services and the handlers *)

Import Facts.

(** ** More about fetchRepoFileTree *)

(** How one iteration ends, case by case. *)
Ltac finish_log := rewrite <- ?app_assoc; cbn [app]; reflexivity.

Lemma attempt_cases (remote : Remote) (bs : list string) (o r b : string)
      (log : list Event) :
  let url := tree_url o r b in
  (exists d, succeeds_with (remote url) d /\
             attempt remote bs o r b log =
             (Return (Some (filter_tree (tree d))),
              (log ++ Request url :: warning (remote url))%list)) \/
  (exists e, stops (remote url) e /\
             attempt remote bs o r b log =
             (Throw e, (log ++ Request url :: warning (remote url))%list)) \/
  (falls_through (remote url) = true /\
   exists errors,
     attempt remote bs o r b log =
     (Return None,
      (log ++ Request url :: warning (remote url) ++ errors)%list) /\
     (errors = [] \/
      exists e, errors = [ConsoleError "Error fetching repo tree:" e] /\
                b = last_branch bs /\ raised (remote url) e)).
Proof.
  intros url.
  unfold falls_through, succeeds_with, stops, throttled, raised, warning,
    truncated_answer.
  run_attempt. fold url.
  assert (Hthrottle :
            forall st, (st =? 403)%Z || (st =? 429)%Z = true ->
                       (st = 403 \/ st = 429)%Z).
  { intros st H. apply orb_true_iff in H as [H|H]; apply Z.eqb_eq in H; auto. }
  destruct (remote url) as [[st [d|e|t e]]|e] eqn:R;
    cbn [body status message GithubService.truncated_flag];
    try (destruct (ok _) eqn:Hok; cbn [andb];
         [|destruct ((st =? 403)%Z || (st =? 429)%Z) eqn:Hst;
           [right; left; exists RateLimited; rewrite rate_limit_recognised;
            split; [|reflexivity]; left; split; [|reflexivity];
            eexists; split; [reflexivity|]; cbn [status]; auto
           |right; right; split; [reflexivity|]; exists [];
            split; [reflexivity|auto]]]).
  - left. exists d. split; [eauto|].
    destruct (truncated d); finish_log.
  - destruct (includes (message e) "rate limit") eqn:Hm.
    + right; left. exists e. split; [|reflexivity]. right.
      split; [|assumption]. right. eexists. eauto.
    + right; right. split; [reflexivity|].
      destruct (String.eqb b (last_branch bs)) eqn:Hb.
      * apply String.eqb_eq in Hb. eexists. split; [finish_log|].
        right. exists e. repeat split; auto. right. eexists. eauto.
      * exists []. split; [reflexivity|auto].
  - assert (Hr : exists resp,
               Responded (mkResponse st (Unfilterable t e)) = Responded resp /\
               ok resp = true /\
               (body resp = Malformed e \/
                exists t', body resp = Unfilterable t' e)).
    { eexists. split; [reflexivity|]. split; [exact Hok|]. right. now exists t. }
    destruct t; destruct (includes (message e) "rate limit") eqn:Hm.
    + right; left. exists e. split; [|finish_log]. right. split; auto.
    + right; right. split; [reflexivity|].
      destruct (String.eqb b (last_branch bs)) eqn:Hb.
      * apply String.eqb_eq in Hb. eexists. split; [finish_log|].
        right. exists e. repeat split; auto.
      * exists []. split; [finish_log|auto].
    + right; left. exists e. split; [|finish_log]. right. split; auto.
    + right; right. split; [reflexivity|].
      destruct (String.eqb b (last_branch bs)) eqn:Hb.
      * apply String.eqb_eq in Hb. eexists. split; [finish_log|].
        right. exists e. repeat split; auto.
      * exists []. split; [finish_log|auto].
  - destruct (includes (message e) "rate limit") eqn:Hm.
    + right; left. exists e. split; [|reflexivity]. right. split; auto.
    + right; right. split; [reflexivity|].
      destruct (String.eqb b (last_branch bs)) eqn:Hb.
      * apply String.eqb_eq in Hb. eexists. split; [finish_log|].
        right. exists e. repeat split; auto.
      * exists []. split; [reflexivity|auto].
Qed.

Lemma main_is_not_last : "main" <> last_branch branches.
Proof. discriminate. Qed.

(** The call ends in one of the five ways. *)
Lemma resolve_ending (remote : Remote) (o r : string) :
  Ending remote o r (resolve remote o r).
Proof.
  rewrite resolve_unfold.
  destruct (attempt_cases remote branches o r "main" [])
    as [[d [Hd E]]|[[e [He E]]|[Hf [errors [E Herr]]]]]; rewrite E; cbn [app].
  - now apply main_answers.
  - now apply main_stops.
  - assert (errors = []) as ->.
    { destruct Herr as [->|[e [_ [Hl _]]]]; [reflexivity|].
      now apply main_is_not_last in Hl. }
    rewrite app_nil_r.
    destruct (attempt_cases remote branches o r "master"
                (Request (tree_url o r "main")
                 :: warning (remote (tree_url o r "main"))))
      as [[d [Hd E']]|[[e [He E']]|[Hf' [errors' [E' Herr']]]]];
      rewrite E'; cbn [app].
    + now apply master_answers.
    + now apply master_stops.
    + apply both_fall_through; auto.
      destruct Herr' as [->|[e [-> [_ Hr]]]]; eauto.
Qed.

Lemma stops_message (o : FetchOutcome) (e : JsError) :
  stops o e -> includes (message e) "rate limit" = true.
Proof. intros [[_ ->]|[_ H]]; [reflexivity|exact H]. Qed.

Lemma includes_nonempty (s sub : string) :
  sub <> "" -> includes s sub = true -> s <> "".
Proof.
  intros Hsub H ->. cbn in H. destruct sub; [congruence|discriminate].
Qed.

Lemma succeeds_not_falls (o' : FetchOutcome) (d : TreeData) :
  succeeds_with o' d -> falls_through o' = false.
Proof. intros [resp [-> [H1 H2]]]. unfold falls_through. now rewrite H1, H2. Qed.

Lemma stops_not_falls (o' : FetchOutcome) (e : JsError) :
  stops o' e -> falls_through o' = false.
Proof.
  intros [[[resp [-> Hst]] _]|[[->|[resp [-> [H1 [H2|[t H2]]]]]] Hm]];
    unfold falls_through.
  - rewrite (rate_limit_status_not_ok _ Hst).
    destruct Hst as [-> | ->]; reflexivity.
  - now rewrite Hm.
  - now rewrite H1, H2, Hm.
  - now rewrite H1, H2, Hm.
Qed.

Lemma requests_warning (o' : FetchOutcome) : requests (warning o') = [].
Proof. unfold warning. now destruct (truncated_answer o'). Qed.

Lemma warning_holds_warnings_only (o' : FetchOutcome) (ev : Event) :
  In ev (warning o') -> ev = ConsoleWarn truncated_warning.
Proof.
  unfold warning. destruct (truncated_answer o'); cbn [In]; intros H.
  - destruct H as [H|[]]. now subst.
  - destruct H.
Qed.

Lemma warning_iff (o' : FetchOutcome) :
  In (ConsoleWarn truncated_warning) (warning o') <-> truncated_answer o' = true.
Proof.
  unfold warning. destruct (truncated_answer o'); cbn; intuition discriminate.
Qed.

(** X1. Whatever the remote answers, the call requests main first and then
    at most master, and it requests master exactly when main fell through. *)
Theorem resolve_requests (remote : Remote) (o r : string) :
  requests (snd (resolve remote o r)) =
  if falls_through (remote (tree_url o r "main"))
  then [tree_url o r "main"; tree_url o r "master"]
  else [tree_url o r "main"].
Proof.
  assert (Hq : forall u o' l,
             requests (Request u :: warning o' ++ l) = u :: requests l).
  { intros u o' l.
    change (Request u :: warning o' ++ l)
      with ([Request u] ++ warning o' ++ l)%list.
    now rewrite !requests_app, requests_warning. }
  assert (Hq0 : forall u o', requests (Request u :: warning o') = [u]).
  { intros u o'. rewrite <- (app_nil_r (warning o')). now rewrite Hq. }
  pose proof succeeds_not_falls as Hn. pose proof stops_not_falls as Hs.
  destruct (resolve_ending remote o r) as [d H|e H|d Hf H|e Hf H|errors Hf Hf' H];
    cbn [snd].
  - now rewrite (Hn _ _ H), Hq0.
  - now rewrite (Hs _ _ H), Hq0.
  - now rewrite Hf, Hq, Hq0.
  - now rewrite Hf, Hq, Hq0.
  - rewrite Hf, Hq, Hq. destruct H as [->|[e [-> _]]]; reflexivity.
Qed.


(** X2. An error that reaches the caller is the not-found error or carries
    [rate limit] in its message; its message is never empty, and the
    not-found error comes only after both candidates fell through. *)
Theorem resolve_errors (remote : Remote) (o r : string) (e : JsError) :
  fst (resolve remote o r) = Throw e ->
  message e <> "" /\
  (includes (message e) "rate limit" = true \/
   e = NotFound /\
   forall b, In b branches -> falls_through (remote (tree_url o r b)) = true).
Proof.
  destruct (resolve_ending remote o r) as [d H|e' H|d Hf H|e' Hf H|errors Hf Hf' H];
    cbn [fst]; intros E; try discriminate; injection E as <-.
  - apply stops_message in H. split; [|now left].
    now apply (includes_nonempty _ "rate limit").
  - apply stops_message in H. split; [|now left].
    now apply (includes_nonempty _ "rate limit").
  - split; [discriminate|]. right. split; [reflexivity|].
    intros b [<-|[<-|[]]]; assumption.
Qed.

Lemma resolve_errors_witness :
  message RateLimited <> "" /\
  (includes (message RateLimited) "rate limit" = true \/
   RateLimited = NotFound /\
   forall b, In b branches ->
             falls_through
               (Examples.remote_of Examples.throttled Examples.not_found
                                   (tree_url "octo" "demo" b)) = true).
Proof.
  apply (resolve_errors (Examples.remote_of Examples.throttled Examples.not_found)
                        "octo" "demo" RateLimited).
  reflexivity.
Defined.

(** X3. A list is returned only when the first candidate that did not fall
    through answered with a success; the list is the filtered tree of that
    answer. *)
Theorem resolve_returns_only_answers (remote : Remote) (o r : string)
        (files : list RepoFileTree) :
  fst (resolve remote o r) = Return files ->
  exists d, answered_with remote o r d /\ files = filter_tree (tree d).
Proof.
  destruct (resolve_ending remote o r) as [d H|e' H|d Hf H|e' Hf H|errors Hf Hf' H];
    cbn [fst]; intros E; try discriminate; injection E as <-;
    exists d; (split; [|reflexivity]).
  - now left.
  - right. now split.
Qed.

Lemma resolve_returns_only_answers_witness :
  exists d,
    answered_with (Examples.remote_of Examples.not_found
                                      (Examples.success Examples.spec_tree))
                  "octo" "demo" d /\
    [mkEntry "src/index.ts" "blob"] = filter_tree (tree d).
Proof.
  apply (resolve_returns_only_answers
           (Examples.remote_of Examples.not_found
                               (Examples.success Examples.spec_tree))
           "octo" "demo" [mkEntry "src/index.ts" "blob"]).
  reflexivity.
Defined.

(** X4. The console receives an error only from a call that ends with the
    not-found error, and the error logged is the exception that the last
    candidate, master, raised: a failure of main alone leaves no trace. *)
Theorem resolve_logs_last_failure_only (remote : Remote) (o r : string)
        (msg : string) (e : JsError) :
  In (ConsoleError msg e) (snd (resolve remote o r)) ->
  fst (resolve remote o r) = Throw NotFound /\
  raised (remote (tree_url o r "master")) e /\
  msg = "Error fetching repo tree:".
Proof.
  assert (Hw : forall o', ~ In (ConsoleError msg e) (warning o')).
  { intros o' H. apply warning_holds_warnings_only in H. discriminate. }
  destruct (resolve_ending remote o r) as [d H|e' H|d Hf H|e' Hf H|errors Hf Hf' H];
    cbn [fst snd In]; rewrite ?in_app_iff; cbn [In]; rewrite ?in_app_iff;
    intros Hin.
  - destruct Hin as [Hin|Hin]; [discriminate|]. now apply Hw in Hin.
  - destruct Hin as [Hin|Hin]; [discriminate|]. now apply Hw in Hin.
  - destruct Hin as [Hin|[Hin|[Hin|Hin]]]; try discriminate; now apply Hw in Hin.
  - destruct Hin as [Hin|[Hin|[Hin|Hin]]]; try discriminate; now apply Hw in Hin.
  - destruct Hin as [Hin|[Hin|[Hin|[Hin|Hin]]]]; try discriminate;
      try (now apply Hw in Hin).
    destruct H as [->|[e' [-> Hr]]]; [destruct Hin|].
    destruct Hin as [Hin|[]]. injection Hin as <- <-. auto.
Qed.

Lemma resolve_logs_last_failure_only_witness :
  fst (resolve (Examples.remote_of Examples.not_found
                                   (NetworkFailure (Error "Failed to fetch")))
               "octo" "demo") = Throw NotFound /\
  raised (Examples.remote_of Examples.not_found
                             (NetworkFailure (Error "Failed to fetch"))
                             (tree_url "octo" "demo" "master"))
         (Error "Failed to fetch") /\
  "Error fetching repo tree:" = "Error fetching repo tree:".
Proof.
  apply (resolve_logs_last_failure_only
           (Examples.remote_of Examples.not_found
                               (NetworkFailure (Error "Failed to fetch")))
           "octo" "demo" "Error fetching repo tree:" (Error "Failed to fetch")).
  cbn. auto.
Defined.

(** X5. The truncation warning is written exactly when a candidate that
    was tried answered with a success whose body parsed with a truthy
    truncated flag, whether its tree was then returned or could not be
    filtered.  Main is always tried, master when main fell through. *)
Theorem resolve_warns_iff_truncated (remote : Remote) (o r : string) :
  In (ConsoleWarn truncated_warning) (snd (resolve remote o r)) <->
  truncated_answer (remote (tree_url o r "main")) = true \/
  (falls_through (remote (tree_url o r "main")) = true /\
   truncated_answer (remote (tree_url o r "master")) = true).
Proof.
  pose proof succeeds_not_falls as Hn. pose proof stops_not_falls as Hs.
  destruct (resolve_ending remote o r) as [d H|e' H|d Hf H|e' Hf H|errors Hf Hf' H];
    cbn [snd In]; rewrite ?in_app_iff; cbn [In]; rewrite ?in_app_iff;
    rewrite ?warning_iff.
  - rewrite (Hn _ _ H). intuition discriminate.
  - rewrite (Hs _ _ H). intuition discriminate.
  - rewrite Hf. intuition discriminate.
  - rewrite Hf. intuition discriminate.
  - rewrite Hf. destruct H as [->|[e [-> _]]]; cbn [In]; intuition discriminate.
Qed.

(** A success for main whose tree is not an array: the source warns, throws
    in the filter and goes on to master, whose answer it returns. *)
Example warning_without_truncated_result :
  resolve (Examples.remote_of
             (Responded (mkResponse 200
                           (Unfilterable true
                              (Error "data.tree.filter is not a function"))))
             (Examples.success Examples.spec_tree))
          "octo" "demo" =
  (Return [mkEntry "src/index.ts" "blob"],
   [Request Examples.main_url; ConsoleWarn truncated_warning;
    Request Examples.master_url]).
Proof. reflexivity. Qed.

(** ** More about parseRepoInput *)

Section SplitFacts.

Lemma includes_cons_false (c : ascii) (s sub : string) :
  includes (String c s) sub = false -> includes s sub = false.
Proof. cbn [includes]. intros H. now apply orb_false_iff in H as [_ H]. Qed.

Lemma includes_slash_head (c : ascii) (s : string) :
  includes (String c s) "/" = false -> Ascii.eqb c "/" = false.
Proof.
  cbn [includes]. intros H. apply orb_false_iff in H as [H _].
  destruct (Ascii.eqb c "/") eqn:E; [|reflexivity].
  apply Ascii.eqb_eq in E. subst c. destruct s; discriminate.
Qed.

Lemma includes_slash_cons (c : ascii) (s : string) :
  Ascii.eqb c "/" = false -> includes s "/" = false ->
  includes (String c s) "/" = false.
Proof.
  intros E H. cbn [includes]. rewrite H, orb_false_r.
  destruct (String.prefix "/" (String c s)) eqn:P; [|reflexivity].
  apply prefix_iff in P as [rest P]. injection P as -> _.
  discriminate E.
Qed.

Lemma split_never_empty (s : string) : split "/" s <> [].
Proof.
  destruct s as [|c s]; cbn [split]; [discriminate|].
  destruct (Ascii.eqb c "/"); [discriminate|].
  destruct (split "/" s); discriminate.
Qed.

(** A string without a slash is one piece. *)
Lemma split_without_slash (s : string) :
  includes s "/" = false -> split "/" s = [s].
Proof.
  induction s as [|c s IH]; intros H; [reflexivity|].
  cbn [split]. rewrite (includes_slash_head _ _ H), IH; [reflexivity|].
  now apply includes_cons_false in H.
Qed.

Lemma split_first_piece (a b : string) :
  includes a "/" = false ->
  split "/" (a ++ "/" ++ b) = a :: split "/" b.
Proof.
  induction a as [|c a IH]; intros H; [reflexivity|].
  change (String c a ++ "/" ++ b) with (String c (a ++ "/" ++ b)).
  cbn [split]. rewrite (includes_slash_head _ _ H), IH; [reflexivity|].
  now apply includes_cons_false in H.
Qed.

(** No piece holds the separator. *)
Lemma split_pieces_without_slash (s p : string) :
  In p (split "/" s) -> includes p "/" = false.
Proof.
  revert p. induction s as [|c s IH]; intros p; cbn [split].
  - intros [<-|[]]. reflexivity.
  - destruct (Ascii.eqb c "/") eqn:E.
    + intros [<-|H]; [reflexivity|now apply IH].
    + destruct (split "/" s) as [|q qs] eqn:S; [now destruct (split_never_empty s)|].
      intros [<-|H].
      * apply includes_slash_cons; [exact E|]. apply IH. now left.
      * apply IH. now right.
Qed.

(** Joining the pieces with the separator gives the string back. *)
Lemma join_split (s : string) : join "/" (split "/" s) = s.
Proof.
  unfold join. induction s as [|c s IH]; [reflexivity|].
  cbn [split]. destruct (Ascii.eqb c "/") eqn:E.
  - apply Ascii.eqb_eq in E. subst c.
    destruct (split "/" s) as [|q qs] eqn:S; [now destruct (split_never_empty s)|].
    change (String.concat "/" ("" :: q :: qs))
      with ("" ++ "/" ++ String.concat "/" (q :: qs)).
    now rewrite IH.
  - destruct (split "/" s) as [|q qs] eqn:S; [now destruct (split_never_empty s)|].
    destruct qs as [|q' qs].
    + cbn [String.concat] in *. congruence.
    + change (String.concat "/" (String c q :: q' :: qs))
        with (String c (q ++ "/" ++ String.concat "/" (q' :: qs))).
      change (String.concat "/" (q :: q' :: qs))
        with (q ++ "/" ++ String.concat "/" (q' :: qs)) in IH.
      now rewrite IH.
Qed.

End SplitFacts.

Section TrimFacts.

Lemma blank_cons (c : ascii) (w : string) :
  blank (String c w) = is_white_space c && blank w.
Proof. reflexivity. Qed.

Lemma trimStart_blank_app (ws x : string) :
  blank ws = true -> trimStart (ws ++ x) = trimStart x.
Proof.
  induction ws as [|c ws IH]; intros H; [reflexivity|].
  rewrite blank_cons in H. apply andb_true_iff in H as [Hc Hw].
  change (String c ws ++ x) with (String c (ws ++ x)).
  cbn [trimStart]. rewrite Hc. auto.
Qed.

Lemma trimEnd_blank (ws : string) : blank ws = true -> trimEnd ws = "".
Proof.
  induction ws as [|c ws IH]; intros H; [reflexivity|].
  rewrite blank_cons in H. apply andb_true_iff in H as [Hc Hw].
  cbn [trimEnd]. now rewrite (IH Hw), Hc.
Qed.

Lemma trimEnd_app_blank (x ws : string) :
  blank ws = true -> trimEnd (x ++ ws) = trimEnd x.
Proof.
  intros H. induction x as [|c x IH]; [now apply trimEnd_blank|].
  change (String c x ++ ws) with (String c (x ++ ws)).
  cbn [trimEnd]. now rewrite IH.
Qed.

(** White space around the input does not reach the parser. *)
Lemma trim_padding (ws1 s ws2 : string) :
  blank ws1 = true -> blank ws2 = true ->
  trim (ws1 ++ s ++ ws2) = trim s.
Proof.
  intros H1 H2. unfold trim. rewrite (trimStart_blank_app _ _ H1).
  induction s as [|c s IH].
  - cbn [append]. rewrite <- (append_nil_r ws2) at 1.
    rewrite (trimStart_blank_app _ _ H2). reflexivity.
  - change (String c s ++ ws2) with (String c (s ++ ws2)).
    cbn [trimStart]. destruct (is_white_space c); [exact IH|].
    change (String c (s ++ ws2)) with (String c s ++ ws2).
    now apply trimEnd_app_blank.
Qed.

Lemma trimStart_starts_clean (s : string) : starts_clean (trimStart s).
Proof.
  induction s as [|c s IH]; cbn [trimStart]; [exact I|].
  destruct (is_white_space c) eqn:E; [exact IH|exact E].
Qed.

Lemma trimEnd_starts_clean (s : string) :
  starts_clean s -> starts_clean (trimEnd s).
Proof.
  destruct s as [|c s]; [trivial|]. cbn [trimEnd starts_clean]. intros H.
  destruct (trimEnd s); [rewrite H|]; exact H.
Qed.

Lemma strip_starts_clean (s : string) :
  starts_clean s -> starts_clean (strip_trailing_slash s).
Proof.
  destruct s as [|c [|d s]]; [trivial| |trivial].
  cbn [strip_trailing_slash]. destruct (Ascii.eqb c "/"); trivial. exact (fun _ => I).
Qed.

Lemma trimStart_fixed (x : string) : starts_clean x -> trimStart x = x.
Proof. destruct x as [|c x]; [reflexivity|]. cbn. now intros ->. Qed.

Lemma clean_starts_clean (s : string) : starts_clean (clean s).
Proof.
  unfold clean, trim.
  apply strip_starts_clean, trimEnd_starts_clean, trimStart_starts_clean.
Qed.

Lemma trimStart_app_slash (s : string) :
  trimStart (s ++ "/") = trimStart s ++ "/".
Proof.
  induction s as [|c s IH]; [reflexivity|].
  change (String c s ++ "/") with (String c (s ++ "/")).
  cbn [trimStart]. destruct (is_white_space c); [exact IH|reflexivity].
Qed.

Lemma trimEnd_app_slash (x : string) : trimEnd (x ++ "/") = x ++ "/".
Proof.
  induction x as [|c x IH]; [reflexivity|].
  change (String c x ++ "/") with (String c (x ++ "/")).
  cbn [trimEnd]. rewrite IH. destruct x; reflexivity.
Qed.

Lemma strip_app_slash (x : string) : strip_trailing_slash (x ++ "/") = x.
Proof.
  induction x as [|c x IH]; [reflexivity|].
  change (String c x ++ "/") with (String c (x ++ "/")).
  cbn [strip_trailing_slash]. rewrite IH. destruct x; reflexivity.
Qed.

(** One slash added at the end is the one the parser removes. *)
Lemma clean_app_slash (s : string) : clean (s ++ "/") = trimStart s.
Proof.
  unfold clean, trim.
  now rewrite trimStart_app_slash, trimEnd_app_slash, strip_app_slash.
Qed.

End TrimFacts.

Lemma parseRepoInput_clean (newURL : string -> option URL) (a b : string) :
  clean a = clean b -> parseRepoInput newURL a = parseRepoInput newURL b.
Proof. unfold parseRepoInput, clean. now intros ->. Qed.

(** X6. When the cleaned input is not a URL, the parser accepts it exactly
    when it is [owner/repo] with one slash and two non-empty sides, and the
    reference holds the two sides. *)
Theorem parse_bare_token (newURL : string -> option URL) (input o r : string) :
  newURL (clean input) = None ->
  (parseRepoInput newURL input = Some (mkRef o r) <->
   clean input = o ++ "/" ++ r /\ o <> "" /\ r <> "" /\
   includes o "/" = false /\ includes r "/" = false).
Proof.
  intros Hurl. unfold parseRepoInput. fold (clean input). rewrite Hurl. split.
  - destruct (split "/" (clean input)) as [|o' [|r' [|x rest]]] eqn:S;
      try discriminate.
    destruct (truthy o') eqn:To; [|discriminate].
    destruct (truthy r') eqn:Tr; [|discriminate].
    intros H. injection H as <- <-.
    assert (J := join_split (clean input)). rewrite S in J.
    split; [now rewrite <- J|].
    split; [now apply truthy_nonempty|]. split; [now apply truthy_nonempty|].
    split; apply (split_pieces_without_slash (clean input));
      rewrite S; simpl; auto.
  - intros [-> [Ho [Hr [So Sr]]]].
    rewrite (split_first_piece _ _ So), (split_without_slash _ Sr).
    destruct o; [congruence|]. destruct r; [congruence|]. reflexivity.
Qed.

Lemma parse_bare_token_witness :
  parseRepoInput Examples.toy_URL " facebook/react/ " =
    Some (mkRef "facebook" "react") <->
  clean " facebook/react/ " = "facebook" ++ "/" ++ "react" /\
  "facebook" <> "" /\ "react" <> "" /\
  includes "facebook" "/" = false /\ includes "react" "/" = false.
Proof.
  apply (parse_bare_token Examples.toy_URL " facebook/react/ " "facebook" "react").
  reflexivity.
Defined.

(** X7. Neither field of a parsed reference holds a slash, on the URL path
    and on the bare-token path alike. *)
Theorem parsed_fields_without_slash (newURL : string -> option URL)
        (input : string) (ref : RepositoryReference) :
  parseRepoInput newURL input = Some ref ->
  includes (owner ref) "/" = false /\ includes (repo ref) "/" = false.
Proof.
  unfold parseRepoInput. fold (clean input).
  assert (Hbare :
            match split "/" (clean input) with
            | [o; r] => if truthy o && truthy r then Some (mkRef o r) else None
            | _ => None
            end = Some ref ->
            includes (owner ref) "/" = false /\ includes (repo ref) "/" = false).
  { destruct (split "/" (clean input)) as [|o [|r [|x rest]]] eqn:S;
      try discriminate.
    destruct (truthy o && truthy r); [|discriminate].
    intros H. injection H as <-. cbn [owner repo].
    split; apply (split_pieces_without_slash (clean input));
      rewrite S; simpl; auto. }
  destruct (newURL (clean input)) as [url|]; [|exact Hbare].
  destruct (String.eqb (hostname url) "github.com"); [|exact Hbare].
  destruct (List.filter truthy (split "/" (pathname url)))
    as [|a [|b rest]] eqn:F; try exact Hbare.
  intros H. injection H as <-. cbn [owner repo].
  assert (Ha : In a (List.filter truthy (split "/" (pathname url))))
    by (rewrite F; simpl; auto).
  assert (Hb : In b (List.filter truthy (split "/" (pathname url))))
    by (rewrite F; simpl; auto).
  apply filter_In in Ha as [Ha _]. apply filter_In in Hb as [Hb _].
  split; eapply split_pieces_without_slash; eassumption.
Qed.

Lemma parsed_fields_without_slash_witness :
  includes (owner (mkRef "facebook" "react")) "/" = false /\
  includes (repo (mkRef "facebook" "react")) "/" = false.
Proof.
  apply (parsed_fields_without_slash Examples.toy_URL
           "https://github.com/facebook/react" (mkRef "facebook" "react")).
  reflexivity.
Defined.

(** X8. TAB, LF, VT, FF, CR, SPACE and NBSP before and after the input
    make no difference to the parser.  These are the white space of
    [trim()] among the code units below 256, which are the code units a
    string of this development holds; the white space above them (U+FEFF,
    U+2028 and the like) is not covered. *)
Theorem parse_ignores_padding (newURL : string -> option URL)
        (ws1 input ws2 : string) :
  blank ws1 = true -> blank ws2 = true ->
  parseRepoInput newURL (ws1 ++ input ++ ws2) = parseRepoInput newURL input.
Proof.
  intros H1 H2. apply parseRepoInput_clean. unfold clean.
  now rewrite trim_padding.
Qed.

Lemma parse_ignores_padding_witness :
  parseRepoInput Examples.toy_URL
    ("  " ++ "https://github.com/facebook/react" ++ " ") =
  parseRepoInput Examples.toy_URL "https://github.com/facebook/react".
Proof.
  apply (parse_ignores_padding Examples.toy_URL "  "
           "https://github.com/facebook/react" " ");
    reflexivity.
Defined.

(** X9. For an input that is already clean (no white space around it, no
    slash at its end) one slash added at the end makes no difference. *)
Theorem parse_ignores_one_trailing_slash (newURL : string -> option URL)
        (input : string) :
  clean input = input ->
  parseRepoInput newURL (input ++ "/") = parseRepoInput newURL input.
Proof.
  intros H. apply parseRepoInput_clean.
  rewrite clean_app_slash, H. apply trimStart_fixed.
  rewrite <- H. apply clean_starts_clean.
Qed.

Lemma parse_ignores_one_trailing_slash_witness :
  parseRepoInput Examples.toy_URL ("https://github.com/facebook/react" ++ "/") =
  parseRepoInput Examples.toy_URL "https://github.com/facebook/react".
Proof.
  apply (parse_ignores_one_trailing_slash Examples.toy_URL
           "https://github.com/facebook/react").
  reflexivity.
Defined.

(** ** services/geminiService.ts *)

Section InlineData.
Import Gemini.

Lemma bare_cases (p : Part) :
  bare p \/ exists d, carries p d.
Proof.
  unfold bare, carries. destruct p as [[[[[|c d]|]]|]].
  - left. intros d [blob [E [D N]]]. injection E as <-. cbn in D. congruence.
  - right. exists (String c d). eexists. repeat split. discriminate.
  - left. intros d [blob [E [D _]]]. injection E as <-. discriminate.
  - left. intros d [blob [E _]]. discriminate.
Qed.

Lemma first_inline_data_bare (p : Part) (rest : list Part) :
  bare p ->
  GeminiService.first_inline_data (p :: rest) =
  GeminiService.first_inline_data rest.
Proof.
  intros H. cbn [GeminiService.first_inline_data].
  destruct (inlineData p) as [blob|] eqn:E; [|reflexivity].
  destruct (data blob) as [d|] eqn:D; [|reflexivity].
  destruct d as [|c d]; [reflexivity|].
  exfalso. apply (H (String c d)). exists blob. repeat split; auto. discriminate.
Qed.

Lemma first_inline_data_carries (p : Part) (rest : list Part) (d : string) :
  carries p d ->
  GeminiService.first_inline_data (p :: rest) = Some d.
Proof.
  intros [blob [E [D N]]]. cbn [GeminiService.first_inline_data].
  rewrite E, D. destruct d; [congruence|reflexivity].
Qed.

Lemma carries_unique (p : Part) (d d' : string) :
  carries p d -> carries p d' -> d = d'.
Proof. intros [b [E [D _]]] [b' [E' [D' _]]]. congruence. Qed.

(** The loop returns the data of the first part that carries some. *)
Lemma first_inline_data_some (ps : list Part) (d : string) :
  GeminiService.first_inline_data ps = Some d <->
  exists before part after,
    ps = (before ++ part :: after)%list /\ Forall bare before /\ carries part d.
Proof.
  induction ps as [|p ps IH].
  - split; [discriminate|]. intros [[|x b] [part [after [E _]]]]; discriminate.
  - destruct (bare_cases p) as [Hb|[d' Hc]].
    + rewrite (first_inline_data_bare _ _ Hb), IH. split.
      * intros [before [part [after [-> [Hf Hc]]]]].
        exists (p :: before), part, after. repeat split; auto.
      * intros [[|x before] [part [after [E [Hf Hc]]]]]; injection E as <- ->.
        -- now apply Hb in Hc.
        -- exists before, part, after. repeat split; auto. now inversion Hf.
    + rewrite (first_inline_data_carries _ _ _ Hc). split.
      * intros E. injection E as <-. exists [], p, ps. repeat split; auto.
      * intros [[|x before] [part [after [E [Hf Hc']]]]]; injection E as <- ->.
        -- f_equal. eapply carries_unique; eassumption.
        -- inversion Hf as [|? ? Hx _]. now apply Hx in Hc.
Qed.

Lemma first_inline_data_none (ps : list Part) :
  GeminiService.first_inline_data ps = None <-> Forall bare ps.
Proof.
  induction ps as [|p ps IH]; [split; auto|].
  destruct (bare_cases p) as [Hb|[d' Hc]].
  - rewrite (first_inline_data_bare _ _ Hb), IH. split; [auto|].
    intros H. now inversion H.
  - rewrite (first_inline_data_carries _ _ _ Hc). split; [discriminate|].
    intros H. inversion H as [|? ? Hx _]. now apply Hx in Hc.
Qed.

End InlineData.

Section ServiceRuns.
Import Gemini.
Variable ai : Model.

Lemma generateContent_run req log :
  GeminiService.generateContent ai req log =
  (ai req, (log ++ [GenerateContent req])%list).
Proof.
  unfold GeminiService.generateContent, GeminiService.emit, Prog.bind,
    Prog.modify, Prog.ret, Prog.throw.
  destruct (ai req); reflexivity.
Qed.

Lemma generateInfographic_run repoName fileTree style is3D language log :
  GeminiService.generateInfographic ai repoName fileTree style is3D language log =
  let req := infographic_request repoName fileTree style is3D language in
  match ai req with
  | Return response =>
      (Return (GeminiService.image_of response),
       (log ++ [GenerateContent req])%list)
  | Throw e =>
      (Throw e,
       (log ++ [GenerateContent req;
                LogError "Gemini infographic generation failed:" e])%list)
  end.
Proof.
  unfold GeminiService.generateInfographic, Prog.try_catch, Prog.bind.
  rewrite generateContent_run. fold (infographic_request repoName fileTree style is3D language).
  cbv zeta.
  destruct (ai (infographic_request repoName fileTree style is3D language));
    [reflexivity|].
  unfold GeminiService.emit, Prog.modify, Prog.throw.
  now rewrite <- app_assoc.
Qed.

End ServiceRuns.

Section GenerateInfographic.
Import Gemini.
Variable ai : Model.
Variables (repoName : string) (fileTree : list RepoFileTree).
Variables (style : string) (is3D : bool) (language : string).
Variable log : list GeminiEvent.

Let req := infographic_request repoName fileTree style is3D language.
Let run :=
  GeminiService.generateInfographic ai repoName fileTree style is3D language log.

(** X10. [generateInfographic] returns an image exactly when the model
    answered and, among the parts of its first candidate, some part
    carries inline data that is not empty; the image is the data of the
    first such part. *)
Theorem generateInfographic_image (d : string) :
  fst run = Return (Some d) <->
  exists response ps before part after,
    ai req = Return response /\
    GeminiService.first_parts response = Some ps /\
    ps = (before ++ part :: after)%list /\
    Forall bare before /\ carries part d.
Proof.
  unfold run. rewrite generateInfographic_run. fold req. cbv zeta.
  destruct (ai req) as [response|e]; cbn [fst].
  - unfold GeminiService.image_of.
    destruct (GeminiService.first_parts response) as [ps|] eqn:P.
    + split.
      * intros H. injection H as H. apply first_inline_data_some in H
          as [before [part [after H]]].
        exists response, ps, before, part, after. tauto.
      * intros [response' [ps' [before [part [after [E [E' H]]]]]]].
        injection E as <-. rewrite P in E'. injection E' as <-.
        f_equal. apply first_inline_data_some. eauto.
    + split; [discriminate|].
      intros [response' [ps' [before [part [after [E [E' H]]]]]]].
      injection E as <-. congruence.
  - split; [discriminate|].
    intros [response' [ps' [before [part [after [E _]]]]]]. discriminate.
Qed.

(** X11. It returns null exactly when the model answered without parts
    in its first candidate, or with parts none of which carries data. *)
Theorem generateInfographic_null :
  fst run = Return None <->
  exists response,
    ai req = Return response /\
    match GeminiService.first_parts response with
    | Some ps => Forall bare ps
    | None => True
    end.
Proof.
  unfold run. rewrite generateInfographic_run. fold req. cbv zeta.
  destruct (ai req) as [response|e]; cbn [fst].
  - unfold GeminiService.image_of.
    destruct (GeminiService.first_parts response) as [ps|] eqn:P.
    + split.
      * intros H. injection H as H. apply first_inline_data_none in H.
        exists response. now rewrite P.
      * intros [response' [E H]]. injection E as <-. rewrite P in H.
        f_equal. now apply first_inline_data_none.
    + split; [|reflexivity]. intros _. exists response. now rewrite P.
  - split; [discriminate|]. intros [response' [E _]]. discriminate.
Qed.

(** X12. Each call sends one request to the model, and an error of the
    model reaches the caller as it is, after one line on the console. *)
Theorem generateInfographic_one_request :
  generated (snd run) = (generated log ++ [req])%list /\
  (forall e, fst run = Throw e <-> ai req = Throw e) /\
  (forall e, ai req = Throw e ->
             snd run =
             (log ++ [GenerateContent req;
                      LogError "Gemini infographic generation failed:" e])%list).
Proof.
  unfold run. rewrite generateInfographic_run. fold req. cbv zeta.
  unfold generated.
  destruct (ai req) as [response|e]; cbn [fst snd]; rewrite flat_map_app;
    (split; [reflexivity|]); (split; [intros e'; split; congruence|]);
    intros e' H; congruence.
Qed.

End GenerateInfographic.

Lemma or_else_nonempty (x : option string) (fallback : string) :
  fallback <> "" -> GeminiService.or_else x fallback <> "".
Proof.
  intros H. unfold GeminiService.or_else.
  destruct x as [[|c s]|]; cbn; auto. discriminate.
Qed.

(** X13. An answer of [askRepoQuestion] or of [askNodeSpecificQuestion] is
    never the empty string: without text from the model the caller gets the
    fixed apology. *)
Theorem answers_are_never_empty (ai : Gemini.Model)
        (question infographicBase64 nodeLabel : string)
        (fileTree : list RepoFileTree) (log : list Gemini.GeminiEvent)
        (answer : string) :
  fst (GeminiService.askRepoQuestion ai question infographicBase64 fileTree log)
    = Return answer \/
  fst (GeminiService.askNodeSpecificQuestion ai nodeLabel question fileTree log)
    = Return answer ->
  answer <> "".
Proof.
  run_service.
  intros [H|H];
    match type of H with
    | context [ai ?req] => destruct (ai req) as [response|e]
    end; cbn [fst] in H; try discriminate; injection H as <-;
    now apply or_else_nonempty.
Qed.

Lemma answers_are_never_empty_witness :
  GeminiService.no_answer <> "".
Proof.
  apply (answers_are_never_empty
           (fun _ => Return (MoreExamples.text_response ""))
           "What does it do?" "iVBORw0KGgo=" "api" Examples.spec_tree []
           GeminiService.no_answer).
  left. reflexivity.
Defined.

(** ** The citations of generateArticleInfographic *)

Section Deduplicate.
Import Types.

Let step := fun (m : JsMap.t Citation) (c : Citation) => JsMap.set (uri c) c m.
Let mem := fun (y : string) (l : list string) => existsb (String.eqb y) l.

(** A map whose keys are distinct and in which every citation sits under
    its own URI. *)
Let tidy (m : JsMap.t Citation) : Prop :=
  NoDup (List.map fst m) /\ forall k c, In (k, c) m -> uri c = k.

Lemma mem_iff (y : string) (l : list string) : mem y l = true <-> In y l.
Proof.
  unfold mem. rewrite existsb_exists. split.
  - intros [x [Hin E]]. apply String.eqb_eq in E. now subst.
  - intros H. exists y. split; [exact H|apply String.eqb_refl].
Qed.

Lemma set_keys {V} (k : string) (v : V) (m : JsMap.t V) :
  List.map fst (JsMap.set k v m) =
  if mem k (List.map fst m) then List.map fst m
  else (List.map fst m ++ [k])%list.
Proof.
  unfold mem. induction m as [|[k' v'] m IH]; [reflexivity|].
  cbn [JsMap.set List.map fst existsb]. rewrite (String.eqb_sym k k').
  destruct (String.eqb k' k) eqn:E; cbn [orb List.map fst].
  - apply String.eqb_eq in E. now subst.
  - rewrite IH. now destruct (existsb (String.eqb k) (List.map fst m)).
Qed.

Lemma set_fresh {V} (k : string) (v : V) (m : JsMap.t V) :
  ~ In k (List.map fst m) -> JsMap.set k v m = (m ++ [(k, v)])%list.
Proof.
  induction m as [|[k' v'] m IH]; intros H; [reflexivity|].
  cbn [JsMap.set app]. destruct (String.eqb k' k) eqn:E.
  - apply String.eqb_eq in E. subst. destruct H. now left.
  - rewrite IH; [reflexivity|]. intros Hin. apply H. now right.
Qed.

Lemma set_In (x : Citation) (m : JsMap.t Citation) (k : string) (c : Citation) :
  NoDup (List.map fst m) ->
  (In (k, c) (JsMap.set (uri x) x m) <->
   (k = uri x /\ c = x) \/ (k <> uri x /\ In (k, c) m)).
Proof.
  induction m as [|[k0 c0] m IH]; intros Hnd.
  - cbn. split.
    + intros [E|[]]. injection E as <- <-. now left.
    + intros [[-> ->]|[_ []]]. now left.
  - inversion Hnd as [|? ? Hk0 Hnd']; subst.
    cbn [JsMap.set]. destruct (String.eqb k0 (uri x)) eqn:E.
    + apply String.eqb_eq in E. subst k0. cbn [In]. split.
      * intros [H|H]; [injection H as <- <-; now left|].
        right. split; [|now right]. intros ->.
        apply Hk0. change (uri x) with (fst (uri x, c)). now apply in_map.
      * intros [[-> ->]|[Hne [H|H]]]; [now left| |now right].
        injection H as <- _. congruence.
    + apply String.eqb_neq in E. cbn [In]. rewrite (IH Hnd'). split.
      * intros [H|[H|[Hne H]]]; auto.
        injection H as <- <-. right. split; [congruence|now left].
      * intros [H|[Hne [H|H]]]; auto.
  Qed.

Lemma set_tidy (x : Citation) (m : JsMap.t Citation) :
  tidy m -> tidy (JsMap.set (uri x) x m).
Proof.
  intros [Hnd Hk]. split.
  - rewrite set_keys. destruct (mem (uri x) (List.map fst m)) eqn:E; [exact Hnd|].
    apply NoDup_app; [exact Hnd|repeat constructor; intros []|].
    intros k Hin [<-|[]]. apply mem_iff in Hin. congruence.
  - intros k c H. apply (set_In _ _ _ _ Hnd) in H as [[-> ->]|[_ H]]; auto.
Qed.

Lemma fold_tidy (cs : list Citation) (m : JsMap.t Citation) :
  tidy m -> tidy (fold_left step cs m).
Proof.
  revert m. induction cs as [|x cs IH]; intros m H; [exact H|].
  cbn [fold_left]. apply IH. now apply set_tidy.
Qed.

Lemma filter_absorb {A} (p q : A -> bool) (l : list A) :
  (forall y, p y = true -> q y = true) ->
  List.filter p (List.filter q l) = List.filter p l.
Proof.
  intros H. induction l as [|y l IH]; [reflexivity|]. cbn [List.filter].
  destruct (q y) eqn:Q; cbn [List.filter].
  - now rewrite IH.
  - destruct (p y) eqn:P; [|exact IH]. apply H in P. congruence.
Qed.

Lemma filter_twice {A} (p q : A -> bool) (l : list A) :
  List.filter p (List.filter q l) = List.filter (fun y => q y && p y) l.
Proof.
  induction l as [|y l IH]; [reflexivity|]. cbn [List.filter].
  destruct (q y); cbn [List.filter andb]; [destruct (p y)|]; now rewrite IH.
Qed.

Lemma filter_all {A} (p : A -> bool) (l : list A) :
  (forall y, p y = true) -> List.filter p l = l.
Proof.
  intros H. induction l as [|y l IH]; [reflexivity|].
  cbn [List.filter]. now rewrite H, IH.
Qed.

(** The keys of the map after the loop: those it had, then the new URIs
    where they first appear. *)
Lemma fold_keys (cs : list Citation) (m : JsMap.t Citation) :
  List.map fst (fold_left step cs m) =
  (List.map fst m ++
   List.filter (fun y => negb (mem y (List.map fst m)))
               (distinct (List.map uri cs)))%list.
Proof.
  revert m. induction cs as [|x cs IH]; intros m.
  - cbn. now rewrite app_nil_r.
  - cbn [fold_left List.map distinct List.filter]. rewrite IH. unfold step.
    rewrite set_keys. destruct (mem (uri x) (List.map fst m)) eqn:E; cbn [negb].
    + f_equal. symmetry. apply filter_absorb.
      intros y Hy. apply negb_true_iff. apply negb_true_iff in Hy.
      destruct (String.eqb y (uri x)) eqn:Ey; [|reflexivity].
      apply String.eqb_eq in Ey. congruence.
    + rewrite <- app_assoc. cbn [app]. do 2 f_equal.
      rewrite filter_twice. apply filter_ext. intros y.
      unfold mem. rewrite existsb_app. cbn [existsb].
      rewrite orb_false_r, negb_orb. apply andb_comm.
Qed.

Lemma values_keys (m : JsMap.t Citation) :
  tidy m -> List.map uri (JsMap.values m) = List.map fst m.
Proof.
  intros [_ Hk]. unfold JsMap.values. rewrite map_map.
  apply map_ext_in. intros [k c] Hin. cbn. now apply Hk.
Qed.

Lemma tidy_nil : tidy [].
Proof. split; [constructor|intros k c []]. Qed.

Lemma distinct_In (l : list string) (x : string) :
  In x (distinct l) <-> In x l.
Proof.
  induction l as [|y l IH]; [reflexivity|]. cbn [distinct In].
  rewrite filter_In, IH, negb_true_iff, String.eqb_neq.
  destruct (string_dec y x); intuition congruence.
Qed.

Lemma distinct_NoDup (l : list string) : NoDup (distinct l).
Proof.
  induction l as [|y l IH]; cbn [distinct]; constructor.
  - rewrite filter_In, String.eqb_refl. intros [_ H]. discriminate.
  - now apply NoDup_filter.
Qed.

Lemma dedup_uris (cs : list Citation) :
  List.map uri (GeminiService.Article.deduplicate cs) = distinct (List.map uri cs).
Proof.
  unfold GeminiService.Article.deduplicate. fold step.
  rewrite values_keys by (apply fold_tidy, tidy_nil).
  rewrite fold_keys. cbn [List.map app]. now apply filter_all.
Qed.

Lemma dedup_NoDup (cs : list Citation) :
  NoDup (List.map uri (GeminiService.Article.deduplicate cs)).
Proof. rewrite dedup_uris. apply distinct_NoDup. Qed.

(** X14. After the deduplication the URIs are the distinct URIs of the
    collected citations, each at the place where it first appeared: no
    URI twice, none lost, none added. *)
Theorem deduplicate_uris (cs : list Citation) :
  List.map uri (GeminiService.Article.deduplicate cs) =
    distinct (List.map uri cs) /\
  NoDup (List.map uri (GeminiService.Article.deduplicate cs)) /\
  (forall u, In u (List.map uri (GeminiService.Article.deduplicate cs)) <->
             In u (List.map uri cs)).
Proof.
  rewrite dedup_uris. split; [reflexivity|]. split.
  - apply distinct_NoDup.
  - intros u. apply distinct_In.
Qed.

Lemma fold_In (cs : list Citation) (m : JsMap.t Citation) (c : Citation) :
  tidy m ->
  (In c (JsMap.values (fold_left step cs m)) <->
   (exists before after,
       cs = (before ++ c :: after)%list /\ ~ In (uri c) (List.map uri after)) \/
   (In c (JsMap.values m) /\ ~ In (uri c) (List.map uri cs))).
Proof.
  revert m. induction cs as [|x cs IH]; intros m Hm.
  - cbn [fold_left List.map In]. split; [intros H; right; tauto|].
    intros [[[|y b] [a [E _]]]|[H _]]; try discriminate. exact H.
  - cbn [fold_left]. change (step m x) with (JsMap.set (uri x) x m).
    rewrite (IH _ (set_tidy x m Hm)).
    assert (Hv : In c (JsMap.values (JsMap.set (uri x) x m)) <->
                 c = x \/ (In c (JsMap.values m) /\ uri c <> uri x)).
    { unfold JsMap.values. rewrite !in_map_iff. split.
      - intros [[k c'] [E H]]. cbn in E. subst c'.
        apply (set_In _ _ _ _ (proj1 Hm)) in H as [[_ ->]|[Hne H]]; [now left|].
        right. split; [exists (k, c); auto|].
        rewrite (proj2 Hm _ _ H). exact Hne.
      - intros [->|[[[k c'] [E H]] Hne]].
        + exists (uri x, x). split; [reflexivity|].
          apply (set_In _ _ _ _ (proj1 Hm)). now left.
        + cbn in E. subst c'. exists (k, c). split; [reflexivity|].
          apply (set_In _ _ _ _ (proj1 Hm)). right. split; [|exact H].
          rewrite <- (proj2 Hm _ _ H). exact Hne. }
    rewrite Hv. cbn [List.map In]. split.
    + intros [[before [after [-> Hn]]]|[[->|[Hin Hne]] Hn]].
      * left. exists (x :: before), after. auto.
      * left. exists [], cs. auto.
      * right. split; [exact Hin|]. intros [E|H]; [congruence|contradiction].
    + intros [[[|y before] [after [E Hn]]]|[Hin Hn]].
      * injection E as <- <-. right. split; [now left|exact Hn].
      * injection E as <- ->. left. exists before, after. auto.
      * right. split; [|tauto]. right. split; [exact Hin|]. intros E. apply Hn.
        left. congruence.
Qed.

Lemma dedup_last (cs : list Citation) (c : Citation) :
  In c (GeminiService.Article.deduplicate cs) <->
  exists before after,
    cs = (before ++ c :: after)%list /\ ~ In (uri c) (List.map uri after).
Proof.
  unfold GeminiService.Article.deduplicate. fold step.
  rewrite (fold_In cs [] c tidy_nil). cbn [JsMap.values List.map In]. tauto.
Qed.

(** X15. A citation is kept exactly when it is the last one collected for
    its URI: of two citations for one page the later one wins, at the
    place of the earlier. *)
Theorem deduplicate_keeps_last (cs : list Citation) (c : Citation) :
  In c (GeminiService.Article.deduplicate cs) <->
  exists before after,
    cs = (before ++ c :: after)%list /\ ~ In (uri c) (List.map uri after).
Proof. apply dedup_last. Qed.

Lemma fold_distinct (cs : list Citation) (m : JsMap.t Citation) :
  NoDup (List.map fst m ++ List.map uri cs) ->
  fold_left step cs m = (m ++ List.map (fun c => (uri c, c)) cs)%list.
Proof.
  revert m. induction cs as [|x cs IH]; intros m H.
  - cbn. now rewrite app_nil_r.
  - cbn [fold_left List.map]. change (step m x) with (JsMap.set (uri x) x m).
    assert (Hx : ~ In (uri x) (List.map fst m)).
    { intros Hin. apply NoDup_remove_2 in H. apply H.
      apply in_or_app. now left. }
    rewrite (set_fresh _ _ _ Hx), IH.
    + now rewrite <- app_assoc.
    + rewrite map_app. cbn [List.map fst]. now rewrite <- app_assoc.
Qed.

(** X16. Citations that already have distinct URIs come out of the
    deduplication as they went in. *)
Theorem deduplicate_distinct (cs : list Citation) :
  NoDup (List.map uri cs) -> GeminiService.Article.deduplicate cs = cs.
Proof.
  intros Hl. unfold GeminiService.Article.deduplicate. fold step.
  rewrite fold_distinct by exact Hl.
  unfold JsMap.values. cbn [app]. rewrite map_map. cbn [snd]. apply map_id.
Qed.

Lemma deduplicate_distinct_witness :
  GeminiService.Article.deduplicate
    [mkCitation "https://a.example" "A"; mkCitation "https://b.example" ""] =
  [mkCitation "https://a.example" "A"; mkCitation "https://b.example" ""].
Proof.
  apply (deduplicate_distinct
           [mkCitation "https://a.example" "A";
            mkCitation "https://b.example" ""]).
  repeat constructor; cbn; intuition discriminate.
Defined.

End Deduplicate.

Lemma deduplicate_fixed (cs : list Types.Citation) :
  NoDup (List.map Types.uri cs) -> GeminiService.Article.deduplicate cs = cs.
Proof.
  intros Hl. unfold GeminiService.Article.deduplicate.
  rewrite fold_distinct by exact Hl.
  unfold JsMap.values. cbn [app]. rewrite map_map. cbn [snd]. apply map_id.
Qed.

(** X17. Deduplicating twice is deduplicating once. *)
Theorem deduplicate_idempotent (cs : list Types.Citation) :
  GeminiService.Article.deduplicate (GeminiService.Article.deduplicate cs) =
  GeminiService.Article.deduplicate cs.
Proof. apply deduplicate_fixed. apply dedup_NoDup. Qed.

Section Article.
Import Gemini.
Variable ai : Model.
Variables (url style : string) (onProgress : bool) (language : string).
Variable log : list GeminiEvent.

Let run :=
  GeminiService.generateArticleInfographic ai url style onProgress language log.
Let fallback := GeminiService.Article.fallbackSummary url language.

(** X18. A failure of the analysis call never fails
    [generateArticleInfographic]: the rendering request is sent all the
    same, built on the fallback summary, the result has no citations, and
    the call completes as the rendering call does. *)
Theorem article_analysis_failure_is_absorbed (e : JsError) :
  ai (analysis_request url language) = Throw e ->
  fst run =
    match ai (render_request fallback style language) with
    | Return response =>
        Return (GeminiService.mkResult (GeminiService.image_of response) [])
    | Throw e' => Throw e'
    end /\
  generated (snd run) =
    (generated log ++
     [analysis_request url language;
      render_request fallback style language])%list /\
  In (LogWarn "Content analysis failed, falling back to direct URL prompt" e)
     (snd run).
Proof.
  intros H. unfold run, fallback, analysis_request, render_request in *.
  run_service. rewrite H. cbn [fst snd].
  destruct onProgress; cbn [fst snd];
    match goal with
    | |- context [ai ?req] => destruct (ai req) as [response|e']
    end; cbn [fst snd]; unfold generated; repeat rewrite flat_map_app;
    cbn [flat_map app]; repeat rewrite app_nil_r;
    repeat rewrite <- app_assoc; cbn [app];
    (split; [reflexivity|]); (split; [reflexivity|]);
    repeat rewrite in_app_iff; cbn [In]; auto 10.
Qed.

(** X19. When the analysis call answers, the citations of the result are
    those of its grounding chunks: each has a URI that is not empty, and no
    URI comes twice. *)
Theorem article_citations (result : GeminiService.InfographicResult) :
  fst run = Return result ->
  NoDup (List.map Types.uri (GeminiService.citations result)) /\
  Forall (fun c => Types.uri c <> "") (GeminiService.citations result).
Proof.
  assert (Hc : forall response,
             NoDup (List.map Types.uri
                      (GeminiService.Article.citations_of response)) /\
             Forall (fun c => Types.uri c <> "")
                    (GeminiService.Article.citations_of response)).
  { intros response. unfold GeminiService.Article.citations_of.
    destruct (GeminiService.Article.grounding_chunks response) as [chunks|];
      [|split; constructor].
    split; [apply dedup_NoDup|].
    apply Forall_forall. intros c Hin.
    apply dedup_last in Hin as [before [after [E _]]].
    assert (Hin : In c (GeminiService.Article.collect chunks))
      by (rewrite E; apply in_or_app; right; now left).
    unfold GeminiService.Article.collect in Hin.
    apply in_flat_map in Hin as [chunk [_ Hin]].
    unfold GeminiService.Article.cite in Hin.
    destruct (web chunk) as [w|]; [|destruct Hin].
    destruct (Gemini.uri w) as [[|a u]|]; try destruct Hin as [<-|[]];
      try destruct Hin. discriminate. }
  unfold run. run_service.
  destruct (ai (mkRequest "gemini-3-pro-image-preview"
                          (PlainText (GeminiService.Article.analysisPrompt url language))
                          GoogleSearchTool)) as [analysis|e];
    destruct onProgress; cbn [fst snd];
    match goal with
    | |- context [ai ?req] => destruct (ai req) as [response|e']
    end; cbn [fst snd]; intros E; try discriminate; injection E as <-;
    cbn [GeminiService.citations]; try apply Hc; split; constructor.
Qed.

End Article.

Lemma article_analysis_failure_is_absorbed_witness :
  fst (GeminiService.generateArticleInfographic
         (fun req => match Gemini.config req with
                     | Gemini.GoogleSearchTool => Throw MoreExamples.quota_error
                     | _ => Return MoreExamples.image_response
                     end)
         "https://example.org/post" "Custom" true "English" []) =
  Return (GeminiService.mkResult (Some "iVBORw0KGgo=") []).
Proof.
  apply (article_analysis_failure_is_absorbed
           (fun req => match Gemini.config req with
                       | Gemini.GoogleSearchTool => Throw MoreExamples.quota_error
                       | _ => Return MoreExamples.image_response
                       end)
           "https://example.org/post" "Custom" true "English" []
           MoreExamples.quota_error).
  reflexivity.
Defined.

Lemma article_citations_witness :
  NoDup (List.map Types.uri
           [Types.mkCitation "https://a.example" "A, again";
            Types.mkCitation "https://b.example" ""]) /\
  Forall (fun c => Types.uri c <> "")
         [Types.mkCitation "https://a.example" "A, again";
          Types.mkCitation "https://b.example" ""].
Proof.
  apply (article_citations
           (fun req => match Gemini.config req with
                       | Gemini.GoogleSearchTool => Return MoreExamples.grounded_response
                       | _ => Return MoreExamples.image_response
                       end)
           "https://example.org/post" "Modern Editorial" false "English" []
           (GeminiService.mkResult
              (Some "iVBORw0KGgo=")
              [Types.mkCitation "https://a.example" "A, again";
               Types.mkCitation "https://b.example" ""])).
  reflexivity.
Defined.

(** ** The handlers of RepoAnalyzer *)

(** The resolver only appends to the log it is given. *)
Lemma fetchRepoFileTree_log (remote : Remote) (o r : string) (log : list Event) :
  fetchRepoFileTree remote o r log =
  (fst (resolve remote o r), (log ++ snd (resolve remote o r))%list).
Proof.
  rewrite resolve_unfold.
  unfold fetchRepoFileTree, Async.bind.
  change (try_branches remote branches o r branches)
    with (try_branches remote branches o r ["main"; "master"]).
  rewrite try_branches_cons, (attempt_log _ _ _ _ "main" log).
  destruct (attempt remote branches o r "main" []) as [[[files|]|e] l1];
    cbn [fst snd]; try reflexivity.
  rewrite try_branches_cons, (attempt_log _ _ _ _ "master" (log ++ l1)),
    (attempt_log _ _ _ _ "master" l1).
  destruct (attempt remote branches o r "master" []) as [[[files|]|e] l2];
    cbn [fst snd try_branches]; unfold Async.ret, Async.throw;
    now rewrite app_assoc.
Qed.

Lemma image_of_nonempty (response : Gemini.GenerateContentResponse) (d : string) :
  GeminiService.image_of response = Some d -> d <> "".
Proof.
  unfold GeminiService.image_of.
  destruct (GeminiService.first_parts response) as [ps|]; [|discriminate].
  intros H. apply first_inline_data_some in H
    as [before [part [after [_ [_ [blob [_ [_ N]]]]]]]].
  exact N.
Qed.

Lemma unexpected_error_nonempty (e : JsError) :
  GeminiService.or_else (Some (message e)) AnalyzerView.unexpected_error <> "".
Proof. now apply or_else_nonempty. Qed.

Ltac api_error platform :=
  match goal with
  | |- context [truthy ?m && includes ?m ?s] =>
      destruct (truthy m && includes m s);
      [destruct (AnalyzerView.confirm platform AnalyzerView.billing_notice)|]
  end.

Ltac call_model platform :=
  rewrite generateInfographic_run; cbv zeta;
  match goal with
  | |- context [AnalyzerView.ai platform ?req] =>
      destruct (AnalyzerView.ai platform req) as [response|e]
  end.

Section HandleAnalyze.
Import AnalyzerView.
Variable platform : Platform.
Variable form : Form.
Variable w : World.

Let w' := snd (handleAnalyze platform form w).
Let parsed := parseRepoInput (newURL platform) (repoInput form).



End HandleAnalyze.

(** The handler among other handlers: [during_fetch] and
    [during_generate] are what runs while it waits for GitHub and for the
    model. *)
Section HandleAnalyzeAmong.
Import AnalyzerView.
Variable platform : Platform.
Variable form : Form.
Variable w : World.
Variables during_fetch during_generate : Meanwhile.

Let run := handleAnalyze_among platform form during_fetch during_generate w.
Let w' := snd run.
Let parsed := parseRepoInput (newURL platform) (repoInput form).

(** X20. An input that does not parse: the handler clears the error, both
    images and the stored tree, shows the format message and returns.  It
    waits for nothing, so nothing else runs in between; it sends no request
    to GitHub, does not call the model, and leaves the loading flag, the
    stage, the repository name and the history as they were. *)
Theorem handleAnalyze_invalid_input :
  parsed = None ->
  run =
  (Return tt,
   mkWorld
     (mkState (Some invalid_format) (loading (view w)) (loadingStage (view w))
              None None (generating3D (view w)) None
              (currentRepoName (view w)) (repoHistory (view w)))
     (github w) (gemini w) (browser w)).
Proof.
  unfold run, parsed. intros H. destruct w as [[] gh gm br].
  run_among. rewrite H. reflexivity.
Qed.


(** X22. Once the input has parsed, the handler ends with the loading
    flag down and the stage cleared, whatever failed on the way and
    whatever ran in the meantime. *)
Theorem handleAnalyze_stops_loading (ref : RepositoryReference) :
  parsed = Some ref ->
  fst run = Return tt /\
  loading (view w') = false /\ loadingStage (view w') = "".
Proof.
  unfold w', run, parsed. intros P.
  destruct w as [[e0 l0 ls0 i0 i30 g0 t0 n0 h0] gh gm br].
  run_among. rewrite P.
  rewrite fetchRepoFileTree_log. cbn [fst snd].
  generalize (snd (resolve (remote platform) (owner ref) (repo ref))).
  intros glog.
  destruct (fst (resolve (remote platform) (owner ref) (repo ref)))
    as [[|f files]|e].
  - cbn [length Nat.eqb]. api_error platform; project; auto.
  - cbn [length Nat.eqb]. call_model platform.
    + destruct (GeminiService.image_of response) as [image|];
        [|api_error platform]; project; auto.
    + api_error platform; project; auto.
  - api_error platform; project; auto.
Qed.



End HandleAnalyzeAmong.

(** X27. An image that [editImageWithGemini] returns, or that a result of
    [generateArticleInfographic] holds, is never the empty string: a part
    with empty data is passed over like a part without data. *)
Theorem images_are_never_empty (ai : Gemini.Model)
        (base64Data mimeType prompt url style language : string)
        (onProgress : bool) (log : list Gemini.GeminiEvent) (image : string) :
  fst (GeminiService.editImageWithGemini ai base64Data mimeType prompt log)
    = Return (Some image) \/
  (exists result,
      fst (GeminiService.generateArticleInfographic ai url style onProgress
                                                    language log)
        = Return result /\
      GeminiService.imageData result = Some image) ->
  image <> "".
Proof.
  intros [H|[result [H I]]]; revert H; run_service.
  - match goal with
    | |- context [ai ?req] => destruct (ai req) as [response|e]
    end; cbn [fst]; intros H; try discriminate; injection H as H.
    now apply image_of_nonempty in H.
  - match goal with
    | |- context [ai ?req] => destruct (ai req) as [analysis|e]
    end; destruct onProgress; cbn [fst snd];
      match goal with
      | |- context [ai ?req] => destruct (ai req) as [response|e']
      end; cbn [fst]; intros H; try discriminate; injection H as <-;
      cbn [GeminiService.imageData] in I; now apply image_of_nonempty in I.
Qed.

Lemma images_are_never_empty_witness : "iVBORw0KGgo=" <> "".
Proof.
  apply (images_are_never_empty
           (fun _ => Return MoreExamples.image_response)
           "AAAA" "image/png" "Redraw this in a Neon Cyberpunk style."
           "https://example.org/post" "Custom" "English" false []
           "iVBORw0KGgo=").
  left. reflexivity.
Defined.

Lemma includes_truthy (s sub : string) :
  sub <> "" -> includes s sub = true -> truthy s = true.
Proof.
  intros N H. destruct s; [|reflexivity].
  now destruct (includes_nonempty "" sub N H).
Qed.

Section OtherHandlers.
Import AnalyzerView.
Variable platform : Platform.
Variable form : Form.
Variable w : World.

(** X28. [handleApiError] always leaves a message that is not empty: the
    error's own, or the fixed one when the error has none.  It asks for
    the key switch only for the entity-not-found error, and reloads the
    page only after the user agreed. *)
Theorem handleApiError_effects (err : JsError) :
  let w' := snd (handleApiError platform err w) in
  error (view w') =
    Some (if truthy (message err) then message err else unexpected_error) /\
  error (view w') <> Some "" /\
  browser w' =
    (browser w ++
     if includes (message err) "Requested entity was not found"
     then Confirm billing_notice ::
          (if confirm platform billing_notice then [Reload] else [])
     else [])%list.
Proof.
  destruct w as [[e0 l0 ls0 i0 i30 g0 t0 n0 h0] gh gm br].
  pose proof (unexpected_error_nonempty err) as N.
  assert (T : truthy (message err) &&
              includes (message err) "Requested entity was not found" =
              includes (message err) "Requested entity was not found").
  { destruct (includes (message err) "Requested entity was not found") eqn:I;
      [|apply andb_false_r].
    rewrite (includes_truthy _ "Requested entity was not found"); auto.
    discriminate. }
  run_handler. rewrite T.
  assert (O : GeminiService.or_else (Some (message err)) unexpected_error =
              if truthy (message err) then message err else unexpected_error)
    by reflexivity.
  destruct (includes (message err) "Requested entity was not found");
    [destruct (confirm platform billing_notice)|];
    cbn [fst snd]; rewrite <- ?app_assoc, ?app_nil_r; cbn [app];
    (split; [now rewrite O|]); (split; [congruence|reflexivity]).
Qed.

Variable during_generate : Meanwhile.



End OtherHandlers.

(** Runs of the handlers against a remote that has the tree of the
    specification's example on master, on a page with two earlier items,
    one of which is clicked while the handler waits. *)







Lemma handleAnalyze_invalid_input_witness :
  AnalyzerView.handleAnalyze_among
    (MoreExamples.platform Examples.not_found Examples.not_found
                           (fun _ => Throw MoreExamples.quota_error))
    (MoreExamples.form "github.com/octo/demo")
    (MoreExamples.click MoreExamples.item_2d)
    (MoreExamples.click MoreExamples.item_3d)
    MoreExamples.analysed
  = (Return tt,
     AnalyzerView.mkWorld
       (AnalyzerView.mkState (Some AnalyzerView.invalid_format) false ""
                             None None false None "demo"
                             [MoreExamples.item_3d; MoreExamples.item_2d])
       [] [] []).
Proof.
  apply (handleAnalyze_invalid_input
           (MoreExamples.platform Examples.not_found Examples.not_found
                                  (fun _ => Throw MoreExamples.quota_error))
           (MoreExamples.form "github.com/octo/demo") MoreExamples.analysed
           (MoreExamples.click MoreExamples.item_2d)
           (MoreExamples.click MoreExamples.item_3d)).
  reflexivity.
Defined.


Lemma handleAnalyze_stops_loading_witness :
  let run :=
    AnalyzerView.handleAnalyze_among
      (MoreExamples.platform Examples.throttled Examples.not_found
                             (fun _ => Throw MoreExamples.quota_error))
      (MoreExamples.form "octo/demo")
      (MoreExamples.click MoreExamples.item_2d)
      (MoreExamples.click MoreExamples.item_3d)
      MoreExamples.visited in
  fst run = Return tt /\
  AnalyzerView.loading (AnalyzerView.view (snd run)) = false /\
  AnalyzerView.loadingStage (AnalyzerView.view (snd run)) = "".
Proof.
  apply (handleAnalyze_stops_loading
           (MoreExamples.platform Examples.throttled Examples.not_found
                                  (fun _ => Throw MoreExamples.quota_error))
           (MoreExamples.form "octo/demo") MoreExamples.visited
           (MoreExamples.click MoreExamples.item_2d)
           (MoreExamples.click MoreExamples.item_3d)
           (mkRef "octo" "demo")).
  reflexivity.
Defined.





(** A click on a 2D item of the history while the handler waits for
    GitHub: the request fails, and the page ends with the error of the
    handler and the image of the click, under the name of the clicked
    repository. *)
Example click_during_fetch_shows_error_and_image :
  let w' :=
    snd (AnalyzerView.handleAnalyze_among
           (MoreExamples.platform Examples.throttled Examples.not_found
                                  (fun _ => Return MoreExamples.image_response))
           (MoreExamples.form "octo/demo")
           (MoreExamples.click MoreExamples.item_2d)
           AnalyzerView.undisturbed
           MoreExamples.visited) in
  AnalyzerView.error (AnalyzerView.view w') = Some (message RateLimited) /\
  AnalyzerView.infographicData (AnalyzerView.view w') = Some "BBBB" /\
  AnalyzerView.currentRepoName (AnalyzerView.view w') = "other".
Proof. repeat split. Qed.

(** A click on a 3D item while the 3D handler waits for the model: the
    handler ends showing its own image, filed under the repository it was
    called for, while the page is named after the clicked one. *)
Example click_during_generate_3d :
  let w' :=
    snd (AnalyzerView.handleGenerate3D
           (MoreExamples.platform Examples.not_found Examples.not_found
                                  (fun _ => Return MoreExamples.image_response))
           (MoreExamples.form "octo/demo")
           (MoreExamples.click MoreExamples.item_3d)
           MoreExamples.analysed) in
  AnalyzerView.infographic3DData (AnalyzerView.view w') = Some "iVBORw0KGgo=" /\
  AnalyzerView.currentRepoName (AnalyzerView.view w') = "other" /\
  hd_error (AnalyzerView.repoHistory (AnalyzerView.view w')) =
    Some (History.mkItem "1700000000000" "demo" "iVBORw0KGgo=" true "pastel"
                         1700000000002).
Proof. repeat split. Qed.
